(** * charm-glusterfs: topology planner and rolling-upgrade coordinator

    A shallow embedding of the parts of
      - src/lib/gluster/peer.py   (State, Peer),
      - src/lib/gluster/lib.py    (brick placement, readiness wait),
      - src/reactive/upgrade.py   (marker store, rolling upgrade)
    that the specification talks about, of what they call and of their
    callers in
      - src/lib/gluster/volume.py       (Brick, Volume, Transport,
                                         VolumeType, the volume commands),
      - src/lib/charm/gluster/block.py  (powers of two),
      - src/reactive/main.py            (create_volume, expand_volume),
    and the properties of them.

    Conventions.
    - A Python call either returns a value or raises: [outcome].
    - A [Result] of the [result] package is the sum [Ok]/[Err].
    - A [while] loop without a syntactic bound takes fuel and answers
      [None] when the fuel runs out; every statement that a function
      returns is proved with enough fuel.
    - A Python [dict] is insertion ordered; it is an association list
      with pairwise distinct keys ([dict_wf]). *)

From Stdlib Require Import ZArith Ascii String DecimalString Lia.
From stdpp Require Import base option list strings gmap.

Local Open Scope string_scope.
Local Open Scope list_scope.
Local Open Scope nat_scope.

(** ** Python outcomes *)

Inductive exn : Set :=
  | ValueError
  | UnicodeDecodeError   (* a subclass of ValueError *)
  | TypeError
  | AttributeError
  | IndexError
  | KeyError
  | ZeroDivisionError
  | FileExistsError
  | IOError (strerror : string)
  | GlusterCmdOutputParseError.

Inductive outcome (A : Type) : Type :=
  | Returns (a : A)
  | Raises (e : exn).
Arguments Returns {A} a.
Arguments Raises {A} e.

(** [except ValueError] catches [ValueError] and its subclasses. *)
Definition is_ValueError (e : exn) : bool :=
  match e with
  | ValueError | UnicodeDecodeError => true
  | _ => false
  end.

(** What a [__str__] method hands back, by its dynamic type. *)
Inductive str_answer : Type :=
  | AStr (s : string)
  | ADict.

(** [str(x)], and with it ["{}".format(x)]: a [__str__] that hands back
    something else than a [str] makes it raise [TypeError]. *)
Definition format_object (a : str_answer) : outcome string :=
  match a with
  | AStr s => Returns s
  | ADict => Raises TypeError
  end.

#[export] Instance outcome_ret : MRet outcome := λ A a, Returns a.
#[export] Instance outcome_bind : MBind outcome := λ A B f m,
  match m with
  | Returns a => f a
  | Raises e => Raises e
  end.

(** [result.Ok] and [result.Err]. *)
Inductive Result (A E : Type) : Type :=
  | Ok (a : A)
  | Err (e : E).
Arguments Ok {A E} a.
Arguments Err {A E} e.

(** A [for] loop whose body may raise: the first exception ends it. *)
Fixpoint for_each {S K : Type} (body : S → K → outcome S) (s : S) (ks : list K)
  : outcome S :=
  match ks with
  | [] => Returns s
  | k :: ks' => s' ← body s k; for_each body s' ks'
  end.

(** ** peer.py *)

Module peer_py.

(** [class State(Enum)], in definition order. *)
Inductive State : Set :=
  | Connected
  | Disconnected
  | Unknown
  | EstablishingConnection
  | ProbeSentToPeer
  | ProbeReceivedFromPeer
  | PeerInCluster
  | AcceptedPeerRequest
  | SentAndReceivedPeerRequest
  | PeerRejected
  | PeerDetachInProgress
  | ConnectedToPeer
  | PeerIsConnectedAndAccepted
  | InvalidState.

#[export] Instance State_eq_dec : EqDecision State.
Proof. solve_decision. Defined.

Definition value (s : State) : string :=
  match s with
  | Connected => "connected"
  | Disconnected => "disconnected"
  | Unknown => ""
  | EstablishingConnection => "establishing connection"
  | ProbeSentToPeer => "probe sent to peer"
  | ProbeReceivedFromPeer => "probe received from peer"
  | PeerInCluster => "peer in cluster"
  | AcceptedPeerRequest => "accepted peer in cluster"
  | SentAndReceivedPeerRequest => "sent and received peer request"
  | PeerRejected => "peer rejected"
  | PeerDetachInProgress => "peer detach in progress"
  | ConnectedToPeer => "connected to peer"
  | PeerIsConnectedAndAccepted => "peer is connected and accepted"
  | InvalidState => "invalid state"
  end.

(** What [for state in State] iterates over. *)
Definition members : list State :=
  [ Connected; Disconnected; Unknown; EstablishingConnection;
    ProbeSentToPeer; ProbeReceivedFromPeer; PeerInCluster;
    AcceptedPeerRequest; SentAndReceivedPeerRequest; PeerRejected;
    PeerDetachInProgress; ConnectedToPeer; PeerIsConnectedAndAccepted;
    InvalidState ].

(** [str.lower] on the characters a Rocq string has: the letters A-Z move
    to a-z.  The values compared against are plain ASCII, so a character
    outside A-Z never takes part in a match whatever [lower] does to it. *)
Definition lower_ascii (c : ascii) : ascii :=
  let n := nat_of_ascii c in
  if ((65 <=? n)%nat && (n <=? 90)%nat)%bool then ascii_of_nat (n + 32) else c.

Fixpoint lower (s : string) : string :=
  match s with
  | EmptyString => EmptyString
  | String c s' => String (lower_ascii c) (lower s')
  end.

(** Truth value of a string: empty is false. *)
Definition truthy (s : string) : bool :=
  match s with
  | EmptyString => false
  | String _ _ => true
  end.

(** [State.from_str]. *)
Definition from_str (s : string) : outcome State :=
  if truthy s then
    match find (λ state, String.eqb (lower (value state)) (lower s)) members with
    | Some state => Returns state
    | None => Raises ValueError
    end
  else Raises ValueError.

(** [uuid.UUID]: a 128-bit number. *)
Definition UUID := N.

(** [class Peer]. *)
Record Peer : Type := mkPeer {
  uuid : option UUID;
  hostname : string;
  status : option State
}.

End peer_py.

(** ** volume.py: the two classes the planner reads *)

Module volume_py.
Import peer_py.

(** [class Brick]; the constructor's [brick_uuid] is stored as [uuid]. *)
Record Brick : Type := mkBrick {
  brick_uuid : option UUID;
  peer : Peer;
  path : string;
  is_arbiter : bool
}.

(** [class Volume]: of its fields the planner reads [bricks] only. *)
Record Volume : Type := mkVolume {
  name : string;
  replica_count : Z;
  bricks : list Brick
}.

(** [Volume.__str__]: [return self.__dict__], a dict. *)
Definition Volume_str (self : Volume) : str_answer := ADict.

End volume_py.

(** ** Insertion-ordered dictionaries with string keys *)

Module pydict.

Abbreviation dict V := (list (string * V)).

Definition keys {V} (d : dict V) : list string := d.*1.

Definition dict_wf {V} (d : dict V) : Prop := NoDup (keys d).

(** [d[k]] *)
Fixpoint getitem {V} (d : dict V) (k : string) : outcome V :=
  match d with
  | [] => Raises KeyError
  | (k', v) :: d' => if decide (k' = k) then Returns v else getitem d' k
  end.

(** [d[k] = v]: an existing key keeps its place, a new one goes last. *)
Fixpoint setitem {V} (d : dict V) (k : string) (v : V) : dict V :=
  match d with
  | [] => [(k, v)]
  | (k', v') :: d' =>
      if decide (k' = k) then (k', v) :: d' else (k', v') :: setitem d' k v
  end.

(** [del d[k]] *)
Fixpoint delitem {V} (d : dict V) (k : string) : outcome (dict V) :=
  match d with
  | [] => Raises KeyError
  | (k', v) :: d' =>
      if decide (k' = k) then Returns d'
      else d'' ← delitem d' k; mret ((k', v) :: d'')
  end.

(** [l[c:]] for a list, with Python's reading of a negative bound. *)
Definition slice_from {A} (l : list A) (c : Z) : list A :=
  if (c <? 0)%Z then drop (Z.to_nat (Z.of_nat (length l) + c)) l
  else drop (Z.to_nat c) l.

End pydict.

(** ** lib.py *)

Module lib_py.
Import peer_py volume_py pydict.

(** [class Status(Enum)] *)
Inductive Status : Set :=
  | Created
  | WaitForMorePeers
  | InvalidConfig
  | FailedToCreate
  | FailedToStart
  | Expanded.

(** One value of the peer map: [{'address': ..., 'bricks': [...]}].
    The optional ['location'] is never read.  Every entry has a list of
    bricks of its own: the entries come from the relation data of distinct
    units, and no list object is shared between two of them. *)
Record PeerEntry : Type := mkEntry {
  address : string;
  bricks : list string
}.

(** [copy.deepcopy]: values carry no identity here, the copy is the value.
    What it buys the source is that the caller's map is not consumed. *)
Definition deepcopy {A} (a : A) : A := a.

(** The [Brick(...)] built in the loop body. *)
Definition new_brick (host : PeerEntry) (p : string) : Brick :=
  {| brick_uuid := None;
     peer := {| uuid := None; hostname := address host; status := None |};
     path := p;
     is_arbiter := false |}.

(** [all(len(_peers[i]['bricks']) > 0 for i in _peers.keys())] *)
Fixpoint all_have_bricks (_peers : dict PeerEntry) (ks : list string)
  : outcome bool :=
  match ks with
  | [] => Returns true
  | i :: ks' =>
      host ← getitem _peers i;
      if bool_decide (0 < length (bricks host)) then all_have_bricks _peers ks'
      else Returns false
  end.

(** Body of [for k in _peers.keys()]: [bricks[0]] then [del bricks[0]] on
    the entry stored in [_peers], then [product.append(brick)]. *)
Definition product_body (st : dict PeerEntry * list Brick) (k : string)
  : outcome (dict PeerEntry * list Brick) :=
  let '(_peers, product) := st in
  host ← getitem _peers k;
  match bricks host with
  | [] => Raises IndexError
  | b0 :: rest =>
      mret (setitem _peers k {| address := address host; bricks := rest |},
            product ++ [new_brick host b0])
  end.

(** The [while all(...)] loop. *)
Fixpoint product_loop (fuel : nat) (_peers : dict PeerEntry) (product : list Brick)
  : option (outcome (list Brick)) :=
  match fuel with
  | O => None
  | S fuel' =>
      match all_have_bricks _peers (keys _peers) with
      | Raises e => Some (Raises e)
      | Returns false => Some (Returns product)
      | Returns true =>
          match for_each product_body (_peers, product) (keys _peers) with
          | Raises e => Some (Raises e)
          | Returns (_peers', product') => product_loop fuel' _peers' product'
          end
      end
  end.

Definition brick_and_server_product (fuel : nat) (peers : dict PeerEntry)
  : option (outcome (list Brick)) :=
  product_loop fuel (deepcopy peers) [].

(** [find_new_peers] *)
Definition find_new_peers (peers : dict PeerEntry) (volume_info : Volume)
  : outcome (dict PeerEntry) :=
  for_each
    (λ new_peers p,
       host ← getitem peers p;
       let existing_peer :=
         existsb (λ brick, String.eqb (hostname (peer brick)) (address host))
                 (volume_py.bricks volume_info) in
       if negb existing_peer then mret (setitem new_peers p host)
       else mret new_peers)
    [] (keys peers).

(** [a % b] on integers: the sign follows the divisor, zero raises. *)
Definition py_mod (a b : Z) : outcome Z :=
  if decide (b = 0%Z) then Raises ZeroDivisionError else Returns (a mod b)%Z.

(** [replicas = 3; try: replicas = int(replica_config) except ValueError: pass],
    given what [int(replica_config)] does. *)
Definition replicas_of (int_replica_config : outcome Z) : outcome Z :=
  match int_replica_config with
  | Returns z => Returns z
  | Raises e => if is_ValueError e then Returns 3%Z else Raises e
  end.

Definition len {A} (l : list A) : Z := Z.of_nat (length l).

(** [Ok(brick_and_server_product(...))] *)
Definition Ok_product (r : option (outcome (list Brick)))
  : option (outcome (Result (list Brick) Status)) :=
  match r with
  | None => None
  | Some (Returns product) => Some (Returns (Ok product))
  | Some (Raises e) => Some (Raises e)
  end.

(** Sequencing a call that cannot loop before one that can. *)
Definition and_then {A B} (m : outcome A) (k : A → option (outcome B))
  : option (outcome B) :=
  match m with
  | Returns a => k a
  | Raises e => Some (Raises e)
  end.

(** [get_brick_list].  [int_replica_config] is the outcome of
    [int(config("replication_level"))].  With a volume the first thing
    done is the log line ["... {} {}".format(peers, volume)], which
    formats the volume. *)
Definition get_brick_list (fuel : nat) (int_replica_config : outcome Z)
    (peers : dict PeerEntry) (volume : option Volume)
  : option (outcome (Result (list Brick) Status)) :=
  and_then (replicas_of int_replica_config) (λ replicas,
  match volume with
  | None =>
      if bool_decide (len peers < replicas)%Z then
        Some (Returns (Err WaitForMorePeers))
      else if bool_decide (len peers = replicas) then
        Ok_product (brick_and_server_product fuel peers)
      else
        and_then (py_mod (len peers) replicas) (λ m,
        let count := (len peers - m)%Z in
        let new_peers := deepcopy peers in
        let to_remove := slice_from (keys new_peers) count in
        and_then (for_each delitem new_peers to_remove) (λ new_peers,
        Ok_product (brick_and_server_product fuel new_peers)))
  | Some volume =>
      and_then (format_object (Volume_str volume)) (λ _,
      and_then (find_new_peers peers volume) (λ new_peers,
      if bool_decide (len new_peers < replicas)%Z then
        Some (Returns (Err WaitForMorePeers))
      else if bool_decide (len new_peers = replicas) then
        Ok_product (brick_and_server_product fuel new_peers)
      else
        and_then (py_mod (len new_peers) replicas) (λ m,
        let count := (len new_peers - m)%Z in
        let new_peers := deepcopy peers in
        let to_remove := slice_from (keys new_peers) count in
        and_then (for_each delitem new_peers to_remove) (λ new_peers,
        Ok_product (brick_and_server_product fuel new_peers)))))
  end).

(** [peers_are_ready] *)
Definition peers_are_ready (peer_list : list Peer) : bool :=
  forallb (λ p, bool_decide (status p = Some Connected)) peer_list.

(** The world [wait_for_peers] runs in: [peer_status ()] is a query to the
    cluster daemon, so its [n]-th call answers what the environment says. *)
Record wait_state : Type := mkWait {
  polls : nat;      (* calls of peer_status() so far *)
  iterations : Z;   (* the loop counter *)
  slept : Z         (* seconds passed in time.sleep *)
}.

Definition timeout_message : string :=
  "Gluster peers failed to connect after 10 minutes".

Fixpoint wait_loop (fuel : nat) (peer_status : nat → outcome (list Peer))
    (st : wait_state) : option (outcome (Result unit string) * wait_state) :=
  match fuel with
  | O => None
  | S fuel' =>
      let st1 := {| polls := S (polls st); iterations := iterations st;
                    slept := slept st |} in
      match peer_status (polls st) with
      | Raises e => Some (Raises e, st1)
      | Returns peer_list =>
          if negb (peers_are_ready peer_list) then
            let st2 := {| polls := polls st1;
                          iterations := (iterations st1 + 1)%Z;
                          slept := (slept st1 + 1)%Z |} in
            if bool_decide (iterations st2 > 600)%Z then
              Some (Returns (Err timeout_message), st2)
            else wait_loop fuel' peer_status st2
          else Some (Returns (Ok ()), st1)
      end
  end.

Definition wait_for_peers (fuel : nat) (peer_status : nat → outcome (list Peer))
  : option (outcome (Result unit string) * wait_state) :=
  wait_loop fuel peer_status {| polls := 0; iterations := 0; slept := 0 |}.

End lib_py.

(** ** upgrade.py *)

Module upgrade_py.
Import peer_py volume_py.

(** *** The marker store

    The markers are files of the directory [/mnt/glusterfs/.upgrade] of the
    shared mount, one per key.  A key is a file name of that directory. *)

Inductive fnode : Type :=
  | RegFile (content : string)   (* a regular file of text that can be opened *)
  | BinFile                      (* can be opened, but its bytes are not text
                                    in the locale's encoding *)
  | NoOpen.                      (* exists, but open() fails with IOError *)

Inductive upgrade_dir : Type :=
  | Missing
  | Directory (entries : gmap string fnode).

Inductive event : Type :=
  | EvMakedirs                        (* os.makedirs(p) was called *)
  | EvOpenWrite (key : string)        (* open(p/key, "w") was called *)
  | EvSleep (seconds : Z)             (* time.sleep(seconds) *)
  | EvUpgradePeer (version : string). (* upgrade_peer(version) ran *)

(** What a run can observe and change.  Times are seconds; the floats of
    [time.time()] are taken as exact numbers. *)
Record world : Type := mkWorld {
  fs : upgrade_dir;
  clock : Z;                                  (* time.time() *)
  drift : Z → upgrade_dir → upgrade_dir;      (* what the other peers did to
                                                 the store by the end of a
                                                 sleep *)
  rng : nat → nat;                            (* the random source *)
  rng_calls : nat;
  local_uuid : outcome (Result UUID string);  (* get_local_uuid() *)
  volume_info : outcome (list Volume);        (* volume.volume_info(name) *)
  trace : list event                          (* effects so far, oldest first *)
}.

Definition with_fs (w : world) (d : upgrade_dir) : world :=
  mkWorld d (clock w) (drift w) (rng w) (rng_calls w) (local_uuid w)
          (volume_info w) (trace w).

Definition emit (ev : event) (w : world) : world :=
  mkWorld (fs w) (clock w) (drift w) (rng w) (rng_calls w) (local_uuid w)
          (volume_info w) (trace w ++ [ev]).

Definition io (A : Type) : Type := world → outcome A * world.

#[export] Instance io_ret : MRet io := λ A a w, (Returns a, w).
#[export] Instance io_bind : MBind io := λ A B f m w,
  match m w with
  | (Returns a, w') => f a w'
  | (Raises e, w') => (Raises e, w')
  end.

Definition raise {A} (e : exn) : io A := λ w, (Raises e, w).

(** [try: body except IOError as e: handler(e.strerror)] *)
Definition except_IOError {A} (body : io A) (handler : string → io A) : io A :=
  λ w, match body w with
       | (Raises (IOError strerror), w') => handler strerror w'
       | r => r
       end.

(** [try: body except ValueError: handler] *)
Definition except_ValueError {A} (body : io A) (handler : io A) : io A :=
  λ w, match body w with
       | (Raises e, w') =>
           if is_ValueError e then handler w' else (Raises e, w')
       | r => r
       end.

(** [os.path.exists("/mnt/glusterfs/.upgrade")] *)
Definition exists_upgrade_dir : io bool :=
  λ w, (Returns (match fs w with Missing => false | Directory _ => true end), w).

(** [os.path.exists("/mnt/glusterfs/.upgrade/<key>")] *)
Definition exists_upgrade_key (key : string) : io bool :=
  λ w, (Returns (match fs w with
              | Missing => false
              | Directory entries => bool_decide (is_Some (entries !! key))
              end), w).

(** [os.makedirs(p)], without [exist_ok]: an existing path raises. *)
Definition makedirs : io unit :=
  λ w, match fs w with
       | Missing => (Returns (), with_fs (emit EvMakedirs w) (Directory ∅))
       | Directory _ => (Raises FileExistsError, emit EvMakedirs w)
       end.

(** [open(p/key, "w")]: creates or truncates the file. *)
Definition open_w (key : string) : io unit :=
  λ w, let w' := emit (EvOpenWrite key) w in
       match fs w with
       | Missing => (Raises (IOError "No such file or directory"), w')
       | Directory entries =>
           match entries !! key with
           | Some NoOpen => (Raises (IOError "Permission denied"), w')
           | _ => (Returns (), with_fs w' (Directory (<[key := RegFile ""]> entries)))
           end
       end.

(** [file.write(data)] on the file just opened for writing. *)
Definition file_write (key : string) (data : string) : io unit :=
  λ w, match fs w with
       | Directory entries =>
           match entries !! key with
           | Some (RegFile old) =>
               (Returns (), with_fs w (Directory (<[key := RegFile (old ++ data)%string]> entries)))
           | _ => (Raises (IOError "Bad file descriptor"), w)
           end
       | Missing => (Raises (IOError "Bad file descriptor"), w)
       end.

(** [open(p/key, "r")] followed by [f.readlines()]: the lines of the file,
    each with its newline.  The file is opened as text: bytes that are no
    text in the locale's encoding make [readlines] raise
    [UnicodeDecodeError]. *)
Fixpoint lines_of (cur : string) (s : string) : list string :=
  match s with
  | EmptyString => match cur with EmptyString => [] | _ => [cur] end
  | String c s' =>
      if Ascii.eqb c "010"%char
      then (cur ++ String c EmptyString)%string :: lines_of EmptyString s'
      else lines_of (cur ++ String c EmptyString)%string s'
  end.

Definition open_r_readlines (key : string) : io (list string) :=
  λ w, match fs w with
       | Missing => (Raises (IOError "No such file or directory"), w)
       | Directory entries =>
           match entries !! key with
           | Some (RegFile content) => (Returns (lines_of EmptyString content), w)
           | Some BinFile => (Raises UnicodeDecodeError, w)
           | Some NoOpen => (Raises (IOError "Permission denied"), w)
           | None => (Raises (IOError "No such file or directory"), w)
           end
       end.

(** [time.time()] *)
Definition time_time : io Z := λ w, (Returns (clock w), w).

(** [time.sleep(n)]: the clock moves on and the other peers act. *)
Definition time_sleep (n : Z) : io unit :=
  λ w, let t := (clock w + n)%Z in
       (Returns (),
        mkWorld (drift w t (fs w)) t (drift w) (rng w) (rng_calls w)
                (local_uuid w) (volume_info w) (trace w ++ [EvSleep n])).

(** [random.randrange(a, b)] for [a < b]: an integer of [a, b). *)
Definition randrange (a b : Z) : io Z :=
  λ w, (Returns (a + Z.of_nat (rng w (rng_calls w)) mod (b - a))%Z,
        mkWorld (fs w) (clock w) (drift w) (rng w) (S (rng_calls w))
                (local_uuid w) (volume_info w) (trace w)).

(** *** JSON of a timestamp *)

Definition json_dumps (timestamp : Z) : string :=
  NilZero.string_of_int (Z.to_int timestamp).

(** The argument of [json.loads], by its dynamic type. *)
Inductive json_source : Type :=
  | JStr (s : string)
  | JList (lines : list string).

(** [json.loads]: a [str] is decoded (a text that is no JSON raises
    [ValueError]); a [list] is refused with [TypeError]. *)
Definition json_loads (src : json_source) : io Z :=
  match src with
  | JStr s =>
      match NilZero.int_of_string s with
      | Some d => mret (Z.of_int d)
      | None => raise ValueError
      end
  | JList _ => raise TypeError
  end.

(** *** Keys: ["{}_{}_start".format(uuid, version)] *)

Definition hex_digit (n : N) : ascii :=
  match n with
  | 0%N => "0" | 1%N => "1" | 2%N => "2" | 3%N => "3" | 4%N => "4"
  | 5%N => "5" | 6%N => "6" | 7%N => "7" | 8%N => "8" | 9%N => "9"
  | 10%N => "a" | 11%N => "b" | 12%N => "c" | 13%N => "d" | 14%N => "e"
  | _ => "f"
  end%char.

(** The [k] lowest hexadecimal digits of [n], highest first. *)
Fixpoint hex (k : nat) (n : N) (acc : string) : string :=
  match k with
  | O => acc
  | S k' => hex k' (n / 16)%N (String (hex_digit (n mod 16)%N) acc)
  end.

(** [str(u)] for a UUID: 8-4-4-4-12 hexadecimal digits. *)
Definition str_uuid (u : UUID) : string :=
  let h := hex 32 u EmptyString in
  (substring 0 8 h ++ "-" ++ substring 8 4 h ++ "-" ++ substring 12 4 h ++ "-"
   ++ substring 16 4 h ++ "-" ++ substring 20 12 h)%string.

(** [str] of an optional UUID: [None] prints as its name. *)
Definition str_opt_uuid (u : option UUID) : string :=
  match u with
  | Some u => str_uuid u
  | None => "None"
  end.

Definition marker_key (u : string) (version phase : string) : string :=
  (u ++ "_" ++ version ++ "_" ++ phase)%string.

(** *** The functions of upgrade.py *)

(** [gluster_key_get].  [s] is what [f.readlines()] gives, a list, and it
    goes to [json.loads] as it is. *)
Definition gluster_key_get (key : string) : io (option Z) :=
  e ← exists_upgrade_key key;
  if negb e then mret None
  else
    except_IOError
      (s ← open_r_readlines key;
       except_ValueError
         (decoded ← json_loads (JList s);
          mret (Some decoded))
         (mret None))
      (λ _, mret None).

(** The [try] block of [gluster_key_set]: open in mode ["w"], write the
    encoded timestamp, answer [Ok(())]; an [IOError] becomes [Err]. *)
Definition write_timestamp (key : string) (timestamp : Z)
  : io (Result unit string) :=
  except_IOError
    (open_w key;;
     let encoded := json_dumps timestamp in
     file_write key encoded;;
     mret (Ok ()))
    (λ strerror, mret (Err strerror)).

(** [gluster_key_set] *)
Definition gluster_key_set (key : string) (timestamp : Z)
  : io (Result unit string) :=
  e ← exists_upgrade_dir;
  (if e : bool then makedirs else mret ());;
  write_timestamp key timestamp.

(** [gluster_key_exists] *)
Definition gluster_key_exists (key : string) : io bool :=
  exists_upgrade_key key.

(** The timestamp a marker file holds, for a reader that decodes its text. *)
Definition stored_timestamp (d : upgrade_dir) (key : string) : option Z :=
  match d with
  | Missing => None
  | Directory entries =>
      match entries !! key with
      | Some (RegFile content) => Z.of_int <$> NilZero.int_of_string content
      | _ => None
      end
  end.

(** [upgrade_peer]: the package and service commands are the host's; what
    is kept of them is that they ran. *)
Definition upgrade_peer (new_version : string) : io (Result unit string) :=
  λ w, (Returns (Ok ()), emit (EvUpgradePeer new_version) w).

(** [lock_and_roll]: the results of the two [gluster_key_set] calls are
    dropped. *)
Definition lock_and_roll (my_uuid : UUID) (version : string)
  : io (Result unit string) :=
  start_timestamp ← time_time;
  gluster_key_set (marker_key (str_uuid my_uuid) version "start") start_timestamp;;
  upgrade_peer version;;
  stop_timestamp ← time_time;
  gluster_key_set (marker_key (str_uuid my_uuid) version "done") stop_timestamp;;
  mret (Ok ()).

(** How one turn of the [while] loop of [wait_on_previous_node] ends. *)
Inductive turn : Type :=
  | Return (r : Result unit string)
  | Again (previous_node_finished : bool).

(** The body of [while not previous_node_finished].  The second test of
    [previous_node_start_time is not None], inside the branch that has
    just compared it, is true there and is not repeated. *)
Definition wait_body (previous_node : Peer) (version : string) : io turn :=
  current_timestamp ← time_time;
  previous_node_start_time ←
    gluster_key_get (marker_key (str_opt_uuid (uuid previous_node)) version "start");
  match previous_node_start_time with
  | Some start_time =>
      if bool_decide (current_timestamp - 600 > start_time)%Z then
        mret (Return (Ok ()))
      else
        wait_time ← randrange 5 30;
        time_sleep wait_time;;
        previous_node_finished ←
          gluster_key_exists
            (marker_key (str_opt_uuid (uuid previous_node)) version "done");
        mret (Again previous_node_finished)
  | None => mret (Return (Ok ()))
  end.

(** Computations that contain an unbounded loop: [None] is out of fuel. *)
Definition iof (A : Type) : Type := world → option (outcome A * world).

Definition lift {A} (m : io A) : iof A := λ w, Some (m w).

Definition bindf {A B} (m : iof A) (f : A → iof B) : iof B :=
  λ w, match m w with
       | None => None
       | Some (Returns a, w') => f a w'
       | Some (Raises e, w') => Some (Raises e, w')
       end.

Fixpoint wait_while (fuel : nat) (previous_node : Peer) (version : string)
    (previous_node_finished : bool) : iof (option (Result unit string)) :=
  λ w,
  match fuel with
  | O => None
  | S fuel' =>
      if negb previous_node_finished then
        match wait_body previous_node version w with
        | (Raises e, w') => Some (Raises e, w')
        | (Returns (Return r), w') => Some (Returns (Some r), w')
        | (Returns (Again finished), w') =>
            wait_while fuel' previous_node version finished w'
        end
      else Some (Returns None, w)   (* the function ends without a return *)
  end.

(** [wait_on_previous_node] *)
Definition wait_on_previous_node (fuel : nat) (previous_node : Peer)
    (version : string) : iof (option (Result unit string)) :=
  bindf
    (lift (gluster_key_exists
             (marker_key (str_opt_uuid (uuid previous_node)) version "done")))
    (wait_while fuel previous_node version).

(** An attribute that a [list] object does not have. *)
Definition list_getattr {A B} (l : list A) (attr : string) : io B :=
  raise AttributeError.

(** [peer_list.sort()]: [Peer] defines [__eq__] and no ordering, so the
    first comparison raises; a list shorter than two needs none. *)
Definition sort_peers (peer_list : list Peer) : io (list Peer) :=
  match peer_list with
  | _ :: _ :: _ => raise TypeError
  | _ => mret peer_list
  end.

(** [x == my_uuid.value] for a [Peer] [x]: [Peer.__eq__] reads the [uuid]
    attribute of its argument, which a [uuid.UUID] does not have. *)
Definition peer_eq_uuid (x : Peer) (u : UUID) : io bool :=
  raise AttributeError.

(** [[i for i, x in enumerate(peer_list) if x == my_uuid.value]] *)
Fixpoint positions (i : nat) (peer_list : list Peer) (u : UUID) : io (list nat) :=
  match peer_list with
  | [] => mret []
  | x :: rest =>
      b ← peer_eq_uuid x u;
      tl ← positions (S i) rest u;
      mret (if b : bool then i :: tl else tl)
  end.

Definition get_local_uuid : io (Result UUID string) :=
  λ w, match local_uuid w with
       | Returns r => (Returns r, w)
       | Raises e => (Raises e, w)
       end.

(** [volume.volume_info(volume_name)]: a list of [Volume], or what the
    CLI raised. *)
Definition get_volume_info : io (list Volume) :=
  λ w, match volume_info w with
       | Returns l => (Returns l, w)
       | Raises e => (Raises e, w)
       end.

(** [try: body except GlusterCmdOutputParseError as e: return Err(e)] *)
Definition except_ParseError_f {A} (body : iof A) (handler : iof A) : iof A :=
  λ w, match body w with
       | Some (Raises GlusterCmdOutputParseError, w') => handler w'
       | r => r
       end.

(** [roll_cluster].  Inside the [try], [Some r] is an early [return r]. *)
Definition roll_cluster (fuel : nat) (new_version : string)
  : iof (Result unit string) :=
  bindf (lift get_local_uuid) (λ my_uuid,
  match my_uuid with
  | Err e => lift (mret (Err e))
  | Ok my_uuid_value =>
      bindf
        (except_ParseError_f
           (bindf (lift get_volume_info) (λ volume_bricks,
            bindf (lift (list_getattr volume_bricks "value")) (λ v : Volume,
            bindf (lift (list_getattr (volume_py.bricks v) "peers")) (λ peer_list,
            bindf (lift (sort_peers peer_list)) (λ peer_list,
            bindf (lift (positions 0 peer_list my_uuid_value)) (λ position,
            match position with
            | [] => lift (mret (Some (Err "Unable to determine upgrade position")))
            | O :: _ =>
                bindf (lift (lock_and_roll my_uuid_value new_version)) (λ _,
                lift (mret None))
            | S k :: _ =>
                match peer_list !! k with
                | None => lift (raise IndexError)
                | Some previous_node =>
                    bindf (wait_on_previous_node fuel previous_node new_version) (λ _,
                    bindf (lift (lock_and_roll my_uuid_value new_version)) (λ _,
                    lift (mret None)))
                end
            end))))))
           (lift (mret (Some (Err "GlusterCmdOutputParseError")))))
        (λ early,
           match early with
           | Some r => lift (mret r)
           | None => lift (mret (Ok ()))
           end)
  end).

End upgrade_py.

(** ** The placement the specification describes *)

Module placement.
Import peer_py volume_py pydict lib_py.

(** The least number of device paths over the peers of a non-empty map. *)
Definition min_devices (peers : dict PeerEntry) : nat :=
  match peers with
  | [] => 0
  | (_, e) :: rest =>
      foldr (λ ke m, Nat.min (length (bricks ke.2)) m) (length (bricks e)) rest
  end.

(** Round [j]: every peer, in the order of the map, with its [j]-th path. *)
Definition round (peers : dict PeerEntry) (j : nat) : list Brick :=
  (λ ke, new_brick ke.2 (nth j (bricks ke.2) EmptyString)) <$> peers.

(** Rounds [0 .. min_devices - 1], one after the other. *)
Definition round_robin (peers : dict PeerEntry) : list Brick :=
  flat_map (round peers) (seq 0 (min_devices peers)).

(** The peer of this entry has a path left. *)
Definition has_device (ke : string * PeerEntry) : Prop :=
  0 < length (bricks ke.2).

(** The map after [j] rounds: every peer has lost its first [j] paths. *)
Definition drop_devices (j : nat) (peers : dict PeerEntry) : dict PeerEntry :=
  (λ ke, (ke.1, {| address := address ke.2; bricks := drop j (bricks ke.2) |}))
    <$> peers.

(** The peers that own no brick of the volume, by address. *)
Definition new_peers_of (peers : dict PeerEntry) (volume_info : Volume)
  : dict PeerEntry :=
  filter (λ ke, Forall (λ brick, hostname (peer brick) ≠ address ke.2)
                       (volume_py.bricks volume_info)) peers.

End placement.

(** ** What the polls of [wait_for_peers] see *)

Module readiness.
Import peer_py lib_py.

(** The [i]-th call of [peer_status ()] answers a list that is ready. *)
Definition ready_at (peer_status : nat → outcome (list Peer)) (i : nat) : Prop :=
  ∃ peer_list, peer_status i = Returns peer_list
               ∧ peers_are_ready peer_list = true.

(** The [i]-th call answers a list that is not ready. *)
Definition busy_at (peer_status : nat → outcome (list Peer)) (i : nat) : Prop :=
  ∃ peer_list, peer_status i = Returns peer_list
               ∧ peers_are_ready peer_list = false.

(** The state when the loop tests its guard for the [n]-th time, counting
    from zero: [n] polls, [n] turns and [n] seconds behind. *)
Definition at_turn (n : nat) : wait_state :=
  {| polls := n; iterations := Z.of_nat n; slept := Z.of_nat n |}.

End readiness.

(** ** The two markers of a peer *)

Module markers.
Import peer_py upgrade_py.

Definition start_key (node : Peer) (version : string) : string :=
  marker_key (str_opt_uuid (uuid node)) version "start".

Definition done_key (node : Peer) (version : string) : string :=
  marker_key (str_opt_uuid (uuid node)) version "done".

End markers.

(** ** Sample inputs *)

Module samples.
Import peer_py volume_py pydict lib_py upgrade_py.

Definition busy_peer : Peer := mkPeer (Some 1%N) "10.0.0.1" (Some PeerInCluster).
Definition ready_peer : Peer := mkPeer (Some 1%N) "10.0.0.1" (Some Connected).

(** A volume with one brick, served by 10.0.0.1. *)
Definition sample_volume : Volume :=
  {| name := "test"; replica_count := 3;
     volume_py.bricks :=
       [ {| brick_uuid := Some 7%N;
            peer := {| uuid := None; hostname := "10.0.0.1"; status := None |};
            path := "/mnt/vdb1"; is_arbiter := false |} ] |}.

(** A host whose UUID is [...05], alone with the store: nobody else writes,
    the random source is constant, [volume_info] lists one volume. *)
Definition quiet_world (d : upgrade_dir) (now : Z) : world :=
  {| fs := d; clock := now; drift := λ _ d, d; rng := λ _, 0; rng_calls := 0;
     local_uuid := Returns (Ok 5%N); volume_info := Returns [sample_volume];
     trace := [] |}.

(** Five peers with one device each; the first serves a brick already. *)
Definition five_peers : dict PeerEntry :=
  [ ("glusterfs-0", mkEntry "10.0.0.1" ["/mnt/vdb1"]);
    ("glusterfs-1", mkEntry "10.0.0.2" ["/mnt/vdb1"]);
    ("glusterfs-2", mkEntry "10.0.0.3" ["/mnt/vdb1"]);
    ("glusterfs-3", mkEntry "10.0.0.4" ["/mnt/vdb1"]);
    ("glusterfs-4", mkEntry "10.0.0.5" ["/mnt/vdb1"]) ].

(** The examples of the specification: [A:[a1,a2], B:[b1,b2]] and
    [A:[a1], B:[b1,b2]]. *)
Definition two_peers_equal : dict PeerEntry :=
  [ ("A", mkEntry "hostA" ["a1"; "a2"]); ("B", mkEntry "hostB" ["b1"; "b2"]) ].

Definition two_peers_unequal : dict PeerEntry :=
  [ ("A", mkEntry "hostA" ["a1"]); ("B", mkEntry "hostB" ["b1"; "b2"]) ].

End samples.

(** ** More of peer.py and volume.py: printing, equality, parsing *)

Module objects_py.
Import peer_py volume_py.

(** [State.__str__] *)
Definition State_str (self : State) : string := value self.

(** [Peer.__eq__]: the uuids and nothing else. *)
Definition Peer_eq (self other : Peer) : bool :=
  bool_decide (uuid self = uuid other).

(** [Brick.__eq__] for an [other] that is a [Brick]. *)
Definition Brick_eq (self other : Brick) : bool :=
  bool_decide (brick_uuid self = brick_uuid other)
  && Peer_eq (peer self) (peer other)
  && String.eqb (path self) (path other)
  && Bool.eqb (is_arbiter self) (is_arbiter other).

(** [l1 == l2] for two lists, as [assertListEqual] tests it: the same
    length and equal elements. *)
Fixpoint list_eq {A} (eq : A → A → bool) (l1 l2 : list A) : bool :=
  match l1, l2 with
  | [], [] => true
  | x :: l1', y :: l2' => eq x y && list_eq eq l1' l2'
  | _, _ => false
  end.

(** [Brick.__str__], for a brick that has a peer. *)
Definition Brick_str (self : Brick) : string :=
  (hostname (peer self) ++ ":" ++ path self)%string.

(** [s.split(sep)] for a separator of one character. *)
Fixpoint split_at (sep : ascii) (cur : string) (s : string) : list string :=
  match s with
  | EmptyString => [cur]
  | String c s' =>
      if Ascii.eqb c sep then cur :: split_at sep EmptyString s'
      else split_at sep (cur ++ String c EmptyString)%string s'
  end.

Definition str_split (sep : ascii) (s : string) : list string :=
  split_at sep EmptyString s.

(** [c in s] for a character. *)
Fixpoint has_char (c : ascii) (s : string) : bool :=
  match s with
  | EmptyString => false
  | String c' s' => Ascii.eqb c' c || has_char c s'
  end.

(** What [volume_info] makes of the name of a brick:
    [ip_addr = name.split(':')[0]] and [path = name.split(':')[1]]. *)
Definition brick_name_parts (name : string) : outcome (string * string) :=
  match str_split ":" name with
  | ip_addr :: path :: _ => Returns (ip_addr, path)
  | _ => Raises IndexError
  end.

End objects_py.

(** ** volume.py: two of its enumerations *)

Module volume_enums.

(** [class Transport(Enum)] *)
Inductive Transport : Set := Tcp | TcpAndRdma | Rdma.

Definition Transport_str (self : Transport) : string :=
  match self with
  | Tcp => "tcp"
  | TcpAndRdma => "tcp,rdma"
  | Rdma => "rdma"
  end.

(** [Transport.from_str]; [None] is Python's. *)
Definition Transport_from_str (transport : string) : option Transport :=
  if String.eqb transport "tcp" then Some Tcp
  else if String.eqb transport "tcp,rdma" then Some TcpAndRdma
  else if String.eqb transport "rdma" then Some Rdma
  else if String.eqb transport "0" then Some Tcp
  else None.

(** [class VolumeType(Enum)], in definition order. *)
Inductive VolumeType : Set :=
  | Arbiter
  | Distribute
  | Stripe
  | Replicate
  | StripedAndReplicate
  | Disperse
  | DistributedAndStripe
  | DistributedAndReplicate
  | DistributedAndStripedAndReplicate
  | DistributedAndDisperse.

#[export] Instance VolumeType_eq_dec : EqDecision VolumeType.
Proof. solve_decision. Defined.

Definition VolumeType_value (t : VolumeType) : string :=
  match t with
  | Arbiter => "arbiter"
  | Distribute => "distribute"
  | Stripe => "stripe"
  | Replicate => "replicate"
  | StripedAndReplicate => "stripd-replicate"
  | Disperse => "disperse"
  | DistributedAndStripe => "distributed-stripe"
  | DistributedAndReplicate => "distributed-replicate"
  | DistributedAndStripedAndReplicate => "distributed-striped-replicate"
  | DistributedAndDisperse => "distributed-disperse"
  end.

Definition VolumeType_members : list VolumeType :=
  [ Arbiter; Distribute; Stripe; Replicate; StripedAndReplicate; Disperse;
    DistributedAndStripe; DistributedAndReplicate;
    DistributedAndStripedAndReplicate; DistributedAndDisperse ].

(** [VolumeType.__str__] *)
Definition VolumeType_str (self : VolumeType) : string := VolumeType_value self.

(** [VolumeType(value)]: the member with this value, or [ValueError]. *)
Definition VolumeType_of_value (v : string) : outcome VolumeType :=
  match find (λ t, String.eqb (VolumeType_value t) v) VolumeType_members with
  | Some t => Returns t
  | None => Raises ValueError
  end.

(** What [VolumeType.from_str] returns: a member, the one-element tuple
    of a member ([return VolumeType.Stripe,]) or [None]. *)
Inductive parsed_type : Set :=
  | Member (t : VolumeType)
  | TupleOf (t : VolumeType)
  | NoType.

(** [VolumeType.from_str] *)
Definition VolumeType_from_str (vol_type : string) : parsed_type :=
  if String.eqb vol_type "Arbiter" then Member Arbiter
  else if String.eqb vol_type "Distribute" then Member Distribute
  else if String.eqb vol_type "Stripe" then TupleOf Stripe
  else if String.eqb vol_type "Replicate" then Member Replicate
  else if String.eqb vol_type "Striped-Replicate" then Member StripedAndReplicate
  else if String.eqb vol_type "Disperse" then Member Disperse
  else if String.eqb vol_type "Distributed-Stripe" then Member DistributedAndStripe
  else if String.eqb vol_type "Distributed-Replicate"
    then Member DistributedAndReplicate
  else if String.eqb vol_type "Distributed-Striped-Replicate"
    then Member DistributedAndStripedAndReplicate
  else if String.eqb vol_type "Distrubted-Disperse"
    then Member DistributedAndDisperse
  else NoType.

End volume_enums.

(** ** block.py: sizes *)

Module block_py.

(** [power_of_2]: [((number - 1) & number == 0) and not number == 0] *)
Definition power_of_2 (number : Z) : bool :=
  (Z.land (number - 1) number =? 0)%Z && negb (number =? 0)%Z.

(** [int.bit_length]: the number of bits of the absolute value. *)
Definition bit_length (v : Z) : Z :=
  if (v =? 0)%Z then 0%Z else (Z.log2 (Z.abs v) + 1)%Z.

(** [next_power_of_two]: [2 ** (x - 1).bit_length()] *)
Definition next_power_of_two (x : Z) : Z := (2 ^ bit_length (x - 1))%Z.

End block_py.

(** ** main.py: creating and expanding the volume *)

Module main_py.
Import peer_py volume_py pydict lib_py objects_py volume_enums.

(** What can be raised here: a built-in exception or the exception of the
    gluster command line. *)
Inductive raised : Type :=
  | Py (e : exn)
  | GlusterCmdException (msg : string).

Inductive ended (A : Type) : Type :=
  | Gives (a : A)
  | Throws (r : raised).
Arguments Gives {A} a.
Arguments Throws {A} r.

(** A keyword argument of [volume.create]: left out, [None], or a number. *)
Inductive kwarg : Set :=
  | Absent
  | PyNone
  | Int (z : Z).

Record create_call : Type := mkCreate {
  volname : string;
  volbricks : list string;
  replica : kwarg;
  stripe : kwarg;
  arbiter : kwarg;
  disperse : kwarg;
  redundancy : kwarg;
  transport : string;
  force : bool
}.

Inductive cli_call : Type :=
  | Create (c : create_call)                             (* volume.create(...) *)
  | AddBrick (volume : string) (brick_list : list Brick) (force : bool).
                                                         (* bricks.add(...) *)

(** The gluster command line: a call gives its output, or the text of the
    [GlusterCmdException] it raises. *)
Definition cli : Type := cli_call → Result string string.

(** [str] of a [Status] member. *)
Definition Status_str (s : Status) : string :=
  match s with
  | Created => "Status.Created"
  | WaitForMorePeers => "Status.WaitForMorePeers"
  | InvalidConfig => "Status.InvalidConfig"
  | FailedToCreate => "Status.FailedToCreate"
  | FailedToStart => "Status.FailedToStart"
  | Expanded => "Status.Expanded"
  end.

(** The six [volume_create_...] functions of volume.py: each makes one
    call of [volume.create] and turns its exception into [Err]. *)
Definition volume_create_replicated (gluster : cli) (vol : string)
    (replica_count : Z) (transport : Transport) (bricks : list Brick)
    (force : bool) : Result string string * list cli_call :=
  let call := Create {| volname := vol; volbricks := Brick_str <$> bricks;
                        replica := Int replica_count; stripe := Absent;
                        arbiter := Absent; disperse := Absent;
                        redundancy := Absent;
                        transport := Transport_str transport; force := force |} in
  (gluster call, [call]).

Definition volume_create_arbiter (gluster : cli) (vol : string)
    (replica_count arbiter_count : Z) (transport : Transport)
    (bricks : list Brick) (force : bool) : Result string string * list cli_call :=
  let call := Create {| volname := vol; volbricks := Brick_str <$> bricks;
                        replica := Int replica_count; stripe := Absent;
                        arbiter := Int arbiter_count; disperse := Absent;
                        redundancy := Absent;
                        transport := Transport_str transport; force := force |} in
  (gluster call, [call]).

Definition volume_create_striped (gluster : cli) (vol : string)
    (stripe_count : Z) (transport : Transport) (bricks : list Brick)
    (force : bool) : Result string string * list cli_call :=
  let call := Create {| volname := vol; volbricks := Brick_str <$> bricks;
                        replica := Absent; stripe := Int stripe_count;
                        arbiter := Absent; disperse := Absent;
                        redundancy := Absent;
                        transport := Transport_str transport; force := force |} in
  (gluster call, [call]).

Definition volume_create_striped_replicated (gluster : cli) (vol : string)
    (stripe_count replica_count : Z) (transport : Transport)
    (bricks : list Brick) (force : bool) : Result string string * list cli_call :=
  let call := Create {| volname := vol; volbricks := Brick_str <$> bricks;
                        replica := Int replica_count; stripe := Int stripe_count;
                        arbiter := Absent; disperse := Absent;
                        redundancy := Absent;
                        transport := Transport_str transport; force := force |} in
  (gluster call, [call]).

Definition volume_create_distributed (gluster : cli) (vol : string)
    (transport : Transport) (bricks : list Brick) (force : bool)
  : Result string string * list cli_call :=
  let call := Create {| volname := vol; volbricks := Brick_str <$> bricks;
                        replica := Absent; stripe := Absent;
                        arbiter := Absent; disperse := Absent;
                        redundancy := Absent;
                        transport := Transport_str transport; force := force |} in
  (gluster call, [call]).

Definition volume_create_erasure (gluster : cli) (vol : string)
    (disperse_count : Z) (redundancy_count : option Z) (transport : Transport)
    (bricks : list Brick) (force : bool) : Result string string * list cli_call :=
  let call := Create {| volname := vol; volbricks := Brick_str <$> bricks;
                        replica := Absent; stripe := Absent;
                        arbiter := Absent; disperse := Int disperse_count;
                        redundancy := match redundancy_count with
                                      | Some z => Int z
                                      | None => PyNone
                                      end;
                        transport := Transport_str transport; force := force |} in
  (gluster call, [call]).

(** [volume_add_brick] of volume.py *)
Definition volume_add_brick (gluster : cli) (volume : string)
    (brick_list : list Brick) (force : bool) : ended unit * list cli_call :=
  match brick_list with
  | [] => (Throws (Py ValueError), [])
  | _ =>
      let call := AddBrick volume brick_list force in
      match gluster call with
      | Ok _ => (Gives (), [call])
      | Err msg => (Throws (GlusterCmdException msg), [call])
      end
  end.

(** [create_volume].  [int_replication_level] and [int_extra_level] are
    the outcomes of [int(config(...))]; the answer comes with the calls
    made of the command line. *)
Definition create_volume (fuel : nat) (gluster : cli)
    (peer_status : nat → outcome (list Peer))
    (cluster_type_config volume_name : string)
    (int_replication_level int_extra_level : outcome Z)
    (peers : dict PeerEntry) (volume_info : option Volume)
  : option (ended (Result Status (Status + string)) * list cli_call) :=
  match VolumeType_of_value (lower cluster_type_config) with
  | Raises e => Some (Throws (Py e), [])
  | Returns cluster_type =>
  match int_replication_level with
  | Raises e => Some (Throws (Py e), [])
  | Returns replicas =>
  match int_extra_level with
  | Raises e => Some (Throws (Py e), [])
  | Returns extra =>
  match wait_for_peers fuel peer_status with
  | None => None
  | Some (Raises e, _) => Some (Throws (Py e), [])
  | Some (Returns _, _) =>
  match get_brick_list fuel int_replication_level peers volume_info with
  | None => None
  | Some (Raises e) => Some (Throws (Py e), [])
  | Some (Returns (Err status)) =>
      Some (Gives match status with
                  | WaitForMorePeers => Ok WaitForMorePeers
                  | InvalidConfig => Err (inl InvalidConfig)
                  | _ => Err (inr ("Unknown error in create volume: "
                                   ++ Status_str status)%string)
                  end, [])
  | Some (Returns (Ok brick_list)) =>
      let '(result, calls) :=
        match cluster_type with
        | Distribute =>
            volume_create_distributed gluster volume_name Tcp brick_list true
        | Stripe =>
            volume_create_striped gluster volume_name replicas Tcp brick_list true
        | Replicate =>
            volume_create_replicated gluster volume_name replicas Tcp
                                     brick_list true
        | Arbiter =>
            volume_create_arbiter gluster volume_name replicas extra Tcp
                                  brick_list true
        | StripedAndReplicate =>
            volume_create_striped_replicated gluster volume_name extra replicas
                                             Tcp brick_list true
        | Disperse =>
            volume_create_erasure gluster volume_name replicas (Some extra) Tcp
                                  brick_list true
        | DistributedAndStripe =>
            volume_create_striped gluster volume_name replicas Tcp brick_list true
        | DistributedAndReplicate =>
            volume_create_replicated gluster volume_name replicas Tcp
                                     brick_list true
        | DistributedAndStripedAndReplicate =>
            volume_create_striped_replicated gluster volume_name extra replicas
                                             Tcp brick_list true
        | DistributedAndDisperse =>
            volume_create_erasure gluster volume_name extra None Tcp
                                  brick_list true
        end in
      Some (Gives match result with
                  | Err _ => Err (inl FailedToCreate)
                  | Ok _ => Ok Created
                  end, calls)
  end end end end end.

(** [expand_volume] *)
Definition expand_volume (fuel : nat) (gluster : cli) (volume_name : string)
    (int_replication_level : outcome Z)
    (peers : dict PeerEntry) (vol_info : option Volume)
  : option (ended (Result Status (Status + string)) * list cli_call) :=
  match get_brick_list fuel int_replication_level peers vol_info with
  | None => None
  | Some (Raises e) => Some (Throws (Py e), [])
  | Some (Returns (Ok brick_list)) =>
      match brick_list with
      | _ :: _ =>
          match volume_add_brick gluster volume_name brick_list true with
          | (Gives _, calls) => Some (Gives (Ok Expanded), calls)
          | (Throws (GlusterCmdException msg), calls) =>
              Some (Gives (Err (inr ("Adding brick to volume failed: "
                                     ++ msg)%string)), calls)
          | (Throws r, calls) => Some (Throws r, calls)
          end
      | [] => Some (Gives (Ok InvalidConfig), [])
      end
  | Some (Returns (Err status)) =>
      Some (Gives match status with
                  | WaitForMorePeers => Ok WaitForMorePeers
                  | InvalidConfig => Err (inl InvalidConfig)
                  | _ => Err (inr ("Unknown error in expand volume: "
                                   ++ Status_str status)%string)
                  end, [])
  end.

End main_py.

(** * Properties *)

Import peer_py volume_py pydict lib_py upgrade_py placement readiness markers samples.

(** ** Dictionaries *)

Section dict_facts.
Context {V : Type}.
Implicit Types (d pre suf : dict V) (k : string) (v : V).

Lemma keys_app pre suf : keys (pre ++ suf) = keys pre ++ keys suf.
Proof. unfold keys. apply fmap_app. Qed.

Lemma getitem_app_fresh pre suf k :
  k ∉ keys pre → getitem (pre ++ suf) k = getitem suf k.
Proof.
  induction pre as [|[k' v'] pre IH]; simpl; [done|].
  intros Hk. apply not_elem_of_cons in Hk as [Hne Hk].
  destruct (decide (k' = k)); [congruence|]. auto.
Qed.

Lemma getitem_middle pre suf k v :
  k ∉ keys pre → getitem (pre ++ (k, v) :: suf) k = Returns v.
Proof.
  intros Hk. rewrite getitem_app_fresh by done. simpl.
  by destruct (decide (k = k)).
Qed.

Lemma setitem_middle pre suf k v v' :
  k ∉ keys pre → setitem (pre ++ (k, v) :: suf) k v' = pre ++ (k, v') :: suf.
Proof.
  induction pre as [|[k' w] pre IH]; simpl.
  - intros _. by destruct (decide (k = k)).
  - intros Hk. apply not_elem_of_cons in Hk as [Hne Hk].
    destruct (decide (k' = k)); [congruence|]. by rewrite IH.
Qed.

Lemma setitem_fresh d k v : k ∉ keys d → setitem d k v = d ++ [(k, v)].
Proof.
  induction d as [|[k' w] d IH]; simpl; [done|].
  intros Hk. apply not_elem_of_cons in Hk as [Hne Hk].
  destruct (decide (k' = k)); [congruence|]. by rewrite IH.
Qed.

Lemma delitem_middle pre suf k v :
  k ∉ keys pre → delitem (pre ++ (k, v) :: suf) k = Returns (pre ++ suf).
Proof.
  induction pre as [|[k' w] pre IH]; simpl.
  - intros _. by destruct (decide (k = k)).
  - intros Hk. apply not_elem_of_cons in Hk as [Hne Hk].
    destruct (decide (k' = k)); [congruence|]. by rewrite IH.
Qed.

(** Deleting the keys of a suffix, first to last, leaves the prefix. *)
Lemma delete_suffix pre suf :
  dict_wf (pre ++ suf) → for_each delitem (pre ++ suf) (keys suf) = Returns pre.
Proof.
  revert pre. induction suf as [|[k v] suf IH]; intros pre Hwf; simpl.
  - by rewrite app_nil_r.
  - unfold dict_wf in Hwf. rewrite keys_app in Hwf. simpl in Hwf.
    apply NoDup_app in Hwf as (Hpre & Hdisj & Hsuf).
    rewrite delitem_middle.
    + simpl. apply IH. unfold dict_wf. rewrite keys_app.
      apply NoDup_app. split_and!; [done| |by apply NoDup_cons in Hsuf as [_ ?]].
      intros x Hx Hx'. apply (Hdisj x Hx). by right.
    + intros Hin. apply (Hdisj k Hin). by left.
Qed.

Lemma dict_wf_take d n : dict_wf d → dict_wf (take n d).
Proof.
  unfold dict_wf, keys. rewrite fmap_take. intros Hnd.
  eapply sublist_NoDup; [done | apply sublist_take].
Qed.

End dict_facts.

(** ** The placement loop *)

Section product_facts.
Implicit Types (peers pre suf : dict PeerEntry) (product : list Brick).
Lemma keys_drop_devices j peers : keys (drop_devices j peers) = keys peers.
Proof.
  unfold keys, drop_devices. rewrite <- list_fmap_compose.
  by apply list_fmap_ext.
Qed.

Lemma drop_devices_app j pre suf :
  drop_devices j (pre ++ suf) = drop_devices j pre ++ drop_devices j suf.
Proof. apply fmap_app. Qed.

Lemma wf_shift pre suf (x : string * PeerEntry) :
  dict_wf (pre ++ x :: suf) → dict_wf ((pre ++ [x]) ++ suf).
Proof. by rewrite <- app_assoc. Qed.

Lemma wf_fresh_head pre suf k (e : PeerEntry) :
  dict_wf (pre ++ (k, e) :: suf) → k ∉ keys pre.
Proof.
  unfold dict_wf. rewrite keys_app. simpl. intros Hnd Hin.
  apply NoDup_app in Hnd as (_ & Hdisj & _). apply (Hdisj k Hin). by left.
Qed.
Lemma all_have_bricks_suffix pre suf :
  dict_wf (pre ++ suf) →
  all_have_bricks (pre ++ suf) (keys suf)
  = Returns (bool_decide (Forall has_device suf)).
Proof.
  revert pre. induction suf as [|[k e] suf IH]; intros pre Hwf.
  - done.
  - cbn [keys fmap list_fmap all_have_bricks fst].
    rewrite getitem_middle by (by eapply wf_fresh_head).
    cbn [mbind outcome_bind].
    destruct (bool_decide_reflect (0 < length (bricks e))) as [Hlen|Hlen].
    + change (pre ++ (k, e) :: suf) with (pre ++ [(k, e)] ++ suf).
      rewrite app_assoc. fold (keys suf). rewrite IH by (by apply wf_shift).
      f_equal. apply bool_decide_ext. rewrite Forall_cons. unfold has_device at 2.
      simpl. tauto.
    + f_equal. symmetry. apply bool_decide_eq_false_2.
      rewrite Forall_cons. unfold has_device at 1. simpl. tauto.
Qed.
Lemma all_have_bricks_spec peers :
  dict_wf peers →
  all_have_bricks peers (keys peers)
  = Returns (bool_decide (Forall has_device peers)).
Proof. apply (all_have_bricks_suffix []). Qed.

(** One pass of the [for] loop: every peer gives its first path. *)
Lemma product_pass_suffix pre suf product :
  dict_wf (pre ++ suf) → Forall has_device suf →
  for_each product_body (drop_devices 1 pre ++ suf, product) (keys suf)
  = Returns (drop_devices 1 pre ++ drop_devices 1 suf, product ++ round suf 0).
Proof.
  revert pre product.
  induction suf as [|[k e] suf IH]; intros pre product Hwf Hdev.
  - simpl. by rewrite !app_nil_r.
  - apply Forall_cons in Hdev as [He Hdev].
    assert (k ∉ keys (drop_devices 1 pre)) as Hk
      by (rewrite keys_drop_devices; by eapply wf_fresh_head).
    cbn [keys fmap list_fmap for_each fst product_body].
    rewrite getitem_middle by done.
    cbn [mbind outcome_bind].
    unfold has_device in He. simpl in He.
    destruct (bricks e) as [|b0 rest] eqn:Hb; [simpl in He; lia|].
    cbn [mret outcome_ret].
    rewrite setitem_middle by done.
    unfold mret, outcome_ret. cbn [mbind outcome_bind]. fold (keys suf).
    specialize (IH (pre ++ [(k, e)]) (product ++ [new_brick e b0])).
    rewrite drop_devices_app in IH. simpl in IH. rewrite Hb in IH. simpl in IH.
    rewrite drop_0 in IH. rewrite <- !app_assoc in IH. simpl in IH.
    etrans; [apply IH; done|].
    unfold round. simpl. rewrite Hb. simpl. by rewrite drop_0.
Qed.

Lemma product_pass peers product :
  dict_wf peers → Forall has_device peers →
  for_each product_body (peers, product) (keys peers)
  = Returns (drop_devices 1 peers, product ++ round peers 0).
Proof. intros. by apply (product_pass_suffix []). Qed.

End product_facts.

Section min_devices_facts.
Implicit Types (peers : dict PeerEntry).

Lemma min_fold_pos (n : nat) peers :
  0 < foldr (λ ke m, Nat.min (length (bricks ke.2)) m) n peers
  ↔ 0 < n ∧ Forall has_device peers.
Proof.
  induction peers as [|ke peers IH]; simpl.
  - rewrite Forall_nil. tauto.
  - rewrite Forall_cons, Nat.min_glb_lt_iff, IH. unfold has_device at 2. tauto.
Qed.

Lemma min_devices_pos peers :
  peers ≠ [] → (0 < min_devices peers ↔ Forall has_device peers).
Proof.
  destruct peers as [|[k e] peers]; [done|]. intros _. simpl.
  rewrite min_fold_pos, Forall_cons. unfold has_device at 2. simpl. tauto.
Qed.

Lemma min_fold_drop (n : nat) peers :
  foldr (λ ke m, Nat.min (length (bricks ke.2)) m) (pred n) (drop_devices 1 peers)
  = pred (foldr (λ ke m, Nat.min (length (bricks ke.2)) m) n peers).
Proof.
  induction peers as [|ke peers IH]; simpl; [done|].
  rewrite IH, length_drop. lia.
Qed.

Lemma min_devices_drop peers :
  min_devices (drop_devices 1 peers) = pred (min_devices peers).
Proof.
  destruct peers as [|[k e] peers]; [done|]. simpl.
  rewrite length_drop, <- min_fold_drop. f_equal. lia.
Qed.

Lemma round_drop peers j : round (drop_devices 1 peers) j = round peers (S j).
Proof.
  unfold round, drop_devices. rewrite <- list_fmap_compose.
  apply list_fmap_ext. intros i [k e] _. simpl. unfold new_brick. simpl.
  f_equal. destruct (bricks e); [by destruct j | done].
Qed.

Lemma length_round peers j : length (round peers j) = length peers.
Proof. unfold round. apply length_fmap. Qed.

Lemma rounds_shift peers m :
  flat_map (round peers) (seq 1 m)
  = flat_map (round (drop_devices 1 peers)) (seq 0 m).
Proof.
  rewrite <- seq_shift, !flat_map_concat_map, List.map_map. f_equal.
  apply List.map_ext. intros j. by rewrite round_drop.
Qed.

End min_devices_facts.

Section product_loop_facts.
Implicit Types (peers : dict PeerEntry) (product : list Brick).

Lemma drop_devices_nonempty peers : peers ≠ [] → drop_devices 1 peers ≠ [].
Proof. by destruct peers. Qed.

Lemma dict_wf_drop_devices peers : dict_wf peers → dict_wf (drop_devices 1 peers).
Proof. unfold dict_wf. by rewrite keys_drop_devices. Qed.

(** The loop runs [min_devices] full rounds and stops. *)
Lemma product_loop_rounds m : ∀ peers product fuel,
  dict_wf peers → peers ≠ [] → min_devices peers = m → m < fuel →
  product_loop fuel peers product
  = Some (Returns (product ++ flat_map (round peers) (seq 0 m))).
Proof.
  induction m as [|m IH]; intros peers product fuel Hwf Hne Hm Hfuel;
    (destruct fuel as [|fuel]; [lia|]); cbn [product_loop];
    rewrite all_have_bricks_spec by done.
  - rewrite bool_decide_eq_false_2.
    + simpl. by rewrite app_nil_r.
    + rewrite <- min_devices_pos by done. lia.
  - rewrite bool_decide_eq_true_2 by (rewrite <- min_devices_pos by done; lia).
    rewrite product_pass; [|done|rewrite <- min_devices_pos by done; lia].
    rewrite (IH (drop_devices 1 peers)).
    + cbn [seq flat_map]. by rewrite rounds_shift, app_assoc.
    + by apply dict_wf_drop_devices.
    + by apply drop_devices_nonempty.
    + rewrite min_devices_drop. lia.
    + lia.
Qed.

(** With no peer at all the guard holds for ever. *)
Lemma product_loop_no_peers fuel product : product_loop fuel [] product = None.
Proof. induction fuel as [|fuel IH]; simpl; done. Qed.

(** Position [j * n + i] of [m] blocks of length [n]. *)
Lemma lookup_blocks {A} (f : nat → list A) (n : nat) :
  (∀ j, length (f j) = n) →
  ∀ m a i j, i < n → j < m →
    flat_map f (seq a m) !! (j * n + i) = f (a + j) !! i.
Proof.
  intros Hlen. induction m as [|m IH]; intros a i j Hi Hj; [lia|].
  cbn [seq flat_map]. destruct j as [|j].
  - rewrite lookup_app_l by (rewrite Hlen; lia). by rewrite Nat.add_0_r.
  - rewrite lookup_app_r by (rewrite Hlen; lia). rewrite Hlen.
    replace (S j * n + i - n) with (j * n + i) by lia.
    rewrite IH by lia. by replace (S a + j) with (a + S j) by lia.
Qed.

Lemma length_blocks {A} (f : nat → list A) (n : nat) :
  (∀ j, length (f j) = n) → ∀ m a, length (flat_map f (seq a m)) = n * m.
Proof.
  intros Hlen. induction m as [|m IH]; intros a; cbn [seq flat_map]; [simpl; lia|].
  rewrite length_app, Hlen, IH. lia.
Qed.

Lemma length_round_robin peers :
  length (round_robin peers) = length peers * min_devices peers.
Proof. apply length_blocks. intros j. apply length_round. Qed.

Lemma min_fold_le (n : nat) peers ke :
  ke ∈ peers →
  foldr (λ ke m, Nat.min (length (bricks ke.2)) m) n peers ≤ length (bricks ke.2).
Proof.
  induction 1 as [ke peers|ke ke' peers _ IH]; simpl; lia.
Qed.

Lemma min_fold_le_base (n : nat) peers :
  foldr (λ ke m, Nat.min (length (bricks ke.2)) m) n peers ≤ n.
Proof. induction peers; simpl; lia. Qed.

Lemma min_devices_le peers ke :
  ke ∈ peers → min_devices peers ≤ length (bricks ke.2).
Proof.
  destruct peers as [|[k e] peers]; [by intros ?%elem_of_nil|].
  intros [->|Hin]%elem_of_cons; simpl.
  - apply min_fold_le_base.
  - by apply min_fold_le.
Qed.

Lemma lookup_round_robin peers i j k e :
  peers !! i = Some (k, e) → j < min_devices peers →
  ∃ p, bricks e !! j = Some p
       ∧ round_robin peers !! (j * length peers + i) = Some (new_brick e p).
Proof.
  intros Hi Hj.
  assert (j < length (bricks e)) as Hlt.
  { eapply Nat.lt_le_trans; [done|].
    apply (min_devices_le peers (k, e)). by eapply list_elem_of_lookup_2. }
  destruct (lookup_lt_is_Some_2 _ _ Hlt) as [p Hp]. exists p. split; [done|].
  unfold round_robin.
  rewrite (lookup_blocks _ (length peers)); [|intros; apply length_round| |done].
  - unfold round. rewrite list_lookup_fmap, Hi. simpl. repeat f_equal.
    by apply nth_lookup_Some.
  - by eapply lookup_lt_Some.
Qed.

End product_loop_facts.

Lemma elem_of_round_robin (peers : dict PeerEntry) (b : Brick) :
  b ∈ round_robin peers →
  ∃ i j k e p, peers !! i = Some (k, e) ∧ j < min_devices peers
               ∧ bricks e !! j = Some p ∧ b = new_brick e p.
Proof.
  unfold round_robin. rewrite list_elem_of_In, in_flat_map.
  intros (j & Hj%in_seq & Hb%list_elem_of_In).
  unfold round in Hb. apply list_elem_of_fmap in Hb as ([k e] & -> & Hke).
  apply list_elem_of_lookup in Hke as [i Hi]. simpl.
  assert (j < length (bricks e)) as Hlt.
  { eapply Nat.lt_le_trans; [apply Hj|].
    apply (min_devices_le peers (k, e)). by eapply list_elem_of_lookup_2. }
  destruct (lookup_lt_is_Some_2 _ _ Hlt) as [p Hp].
  exists i, j, k, e, p. split_and!; [done|lia|done|].
  f_equal. by apply nth_lookup_Some.
Qed.

(** C1 (as amended).  For every non-empty ordered map of peer entries,
    [brick_and_server_product] returns, and what it returns is the list of
    [N * m] bricks, [N] the number of peers and [m] the least number of
    device paths of a peer, that holds at position [j * N + i] the brick of
    the [i]-th peer and its [j]-th path: round after round, the peers in
    the order of the map, each with its first path not yet used.  Every
    brick of the list is one of these: a path at position [m] or later of
    a peer is placed nowhere. *)
Theorem brick_and_server_product_round_robin (peers : dict PeerEntry) (fuel : nat) :
  dict_wf peers → peers ≠ [] → min_devices peers < fuel →
  ∃ product,
    brick_and_server_product fuel peers = Some (Returns product)
    ∧ length product = length peers * min_devices peers
    ∧ (∀ i j k e, peers !! i = Some (k, e) → j < min_devices peers →
         ∃ p, bricks e !! j = Some p
              ∧ product !! (j * length peers + i) = Some (new_brick e p))
    ∧ (∀ b, b ∈ product →
         ∃ i j k e p, peers !! i = Some (k, e) ∧ j < min_devices peers
                      ∧ bricks e !! j = Some p ∧ b = new_brick e p).
Proof.
  intros Hwf Hne Hfuel. exists (round_robin peers). split_and!.
  - unfold brick_and_server_product, deepcopy.
    by rewrite (product_loop_rounds (min_devices peers)).
  - apply length_round_robin.
  - apply lookup_round_robin.
  - apply elem_of_round_robin.
Qed.

Lemma brick_and_server_product_round_robin_witness :
  (∃ product,
     brick_and_server_product 5 two_peers_unequal = Some (Returns product)
     ∧ length product = 2 * 1
     ∧ (∀ i j k e, two_peers_unequal !! i = Some (k, e) → j < 1 →
          ∃ p, bricks e !! j = Some p
               ∧ product !! (j * 2 + i) = Some (new_brick e p))
     ∧ (∀ b, b ∈ product →
          ∃ i j k e p, two_peers_unequal !! i = Some (k, e) ∧ j < 1
                       ∧ bricks e !! j = Some p ∧ b = new_brick e p)).
Proof.
  apply (brick_and_server_product_round_robin two_peers_unequal 5).
  - apply (bool_decide_unpack _). reflexivity.
  - discriminate.
  - simpl. lia.
Defined.

(** ** Choosing the peers *)

Section get_brick_list_facts.
Implicit Types (peers pre suf : dict PeerEntry) (volume : Volume).

(** Dropping the keys from position [count] on keeps the first [count]
    entries. *)
Lemma drop_trailing_peers peers (count : Z) :
  dict_wf peers → (0 ≤ count)%Z →
  for_each delitem (deepcopy peers) (slice_from (keys (deepcopy peers)) count)
  = Returns (take (Z.to_nat count) peers).
Proof.
  intros Hwf Hc. unfold deepcopy, slice_from.
  destruct (Z.ltb_spec count 0) as [?|_]; [lia|].
  unfold keys. rewrite <- fmap_drop.
  rewrite <- (take_drop (Z.to_nat count) peers) at 1.
  apply delete_suffix. by rewrite take_drop.
Qed.

Lemma existing_peer_spec volume (host : PeerEntry) :
  negb (existsb (λ brick, String.eqb (hostname (peer brick)) (address host))
                (volume_py.bricks volume)) = true
  ↔ Forall (λ brick, hostname (peer brick) ≠ address host)
           (volume_py.bricks volume).
Proof.
  rewrite negb_true_iff, <- not_true_iff_false, existsb_exists, Forall_forall.
  split.
  - intros Hno brick Hin Heq. apply Hno. exists brick. split.
    + by apply list_elem_of_In.
    + by apply String.eqb_eq.
  - intros Hall (brick & Hin & Heq). apply (Hall brick).
    + by apply list_elem_of_In.
    + by apply String.eqb_eq.
Qed.

Lemma keys_filter_subseteq (P : string * PeerEntry → Prop)
    `{∀ x, Decision (P x)} pre k :
  k ∉ keys pre → k ∉ keys (filter P pre).
Proof.
  unfold keys. intros Hk Hin. apply Hk.
  apply list_elem_of_fmap in Hin as (ke & -> & Hke).
  apply list_elem_of_fmap. exists ke. split; [done|].
  by apply list_elem_of_filter in Hke as [_ ?].
Qed.

Lemma find_new_peers_suffix volume pre suf :
  dict_wf (pre ++ suf) →
  for_each
    (λ new_peers p,
       host ← getitem (pre ++ suf) p;
       let existing_peer :=
         existsb (λ brick, String.eqb (hostname (peer brick)) (address host))
                 (volume_py.bricks volume) in
       if negb existing_peer then mret (setitem new_peers p host)
       else mret new_peers)
    (new_peers_of pre volume) (keys suf)
  = Returns (new_peers_of (pre ++ suf) volume).
Proof.
  revert pre. induction suf as [|[k e] suf IH]; intros pre Hwf.
  - simpl. by rewrite app_nil_r.
  - cbn [keys fmap list_fmap for_each fst].
    rewrite getitem_middle by (by eapply wf_fresh_head).
    cbn [mbind outcome_bind]. fold (keys suf).
    change (pre ++ (k, e) :: suf) with (pre ++ [(k, e)] ++ suf).
    rewrite app_assoc. specialize (IH (pre ++ [(k, e)]) (wf_shift _ _ _ Hwf)).
    rewrite <- IH. clear IH.
    destruct (negb _) eqn:Hnew; unfold mret, outcome_ret; cbn [mbind outcome_bind].
    + f_equal. unfold new_peers_of. rewrite filter_app, filter_cons_True.
      * rewrite filter_nil. apply setitem_fresh.
        apply keys_filter_subseteq. by eapply wf_fresh_head.
      * by apply existing_peer_spec.
    + f_equal. unfold new_peers_of. rewrite filter_app, filter_cons_False.
      * by rewrite filter_nil, app_nil_r.
      * rewrite <- existing_peer_spec. simpl. by rewrite Hnew.
Qed.

(** [find_new_peers] keeps, in their order, the entries whose address is
    the hostname of no brick of the volume. *)
Lemma find_new_peers_spec peers volume :
  dict_wf peers → find_new_peers peers volume = Returns (new_peers_of peers volume).
Proof. intros Hwf. by apply (find_new_peers_suffix volume []). Qed.

Lemma Ok_product_rounds peers fuel :
  dict_wf peers → peers ≠ [] → min_devices peers < fuel →
  Ok_product (brick_and_server_product fuel peers)
  = Some (Returns (Ok (round_robin peers))).
Proof.
  intros Hwf Hne Hfuel. unfold brick_and_server_product, deepcopy.
  by rewrite (product_loop_rounds (min_devices peers)).
Qed.

Lemma count_floor (n r : Z) : (r ≠ 0 → n - n mod r = n / r * r)%Z.
Proof. intros Hr. pose proof (Z.div_mod n r Hr). lia. Qed.

Lemma kept_nonempty peers (r : Z) :
  (0 < r)%Z → (len peers > r)%Z → take (Z.to_nat (len peers / r * r)) peers ≠ [].
Proof.
  unfold len. intros Hr Hn Hnil.
  apply (f_equal length) in Hnil. rewrite length_take in Hnil. simpl in Hnil.
  assert (1 ≤ Z.of_nat (length peers) / r)%Z.
  { apply Z.div_le_lower_bound; lia. }
  nia.
Qed.

End get_brick_list_facts.

(** C4.  Without a volume, [N] peer entries and a replication factor
    [R >= 1]: for [N < R] the answer is [Err(Status.WaitForMorePeers)],
    nothing placed and nothing raised; for [N = R] it is [Ok] of the
    round robin over all the peers; for [N > R] it is [Ok] of the round
    robin over the first [floor(N/R)*R] entries, in their order. *)
Theorem get_brick_list_no_volume (cfg : outcome Z) (R : Z)
    (peers : dict PeerEntry) (fuel : nat) :
  dict_wf peers → replicas_of cfg = Returns R → (0 < R)%Z →
  ((len peers < R)%Z →
     get_brick_list fuel cfg peers None = Some (Returns (Err WaitForMorePeers)))
  ∧ (len peers = R → min_devices peers < fuel →
     get_brick_list fuel cfg peers None = Some (Returns (Ok (round_robin peers))))
  ∧ ((len peers > R)%Z →
     min_devices (take (Z.to_nat (len peers / R * R)) peers) < fuel →
     get_brick_list fuel cfg peers None
     = Some (Returns (Ok (round_robin (take (Z.to_nat (len peers / R * R)) peers))))).
Proof.
  intros Hwf Hcfg HR. unfold get_brick_list. rewrite Hcfg. cbn [and_then].
  split_and!.
  - intros Hlt. by rewrite bool_decide_eq_true_2.
  - intros Heq Hfuel.
    rewrite bool_decide_eq_false_2 by lia. rewrite bool_decide_eq_true_2 by done.
    apply Ok_product_rounds; [done| |done].
    intros ->. unfold len in Heq. simpl in Heq. lia.
  - intros Hgt Hfuel.
    rewrite bool_decide_eq_false_2 by lia. rewrite bool_decide_eq_false_2 by lia.
    unfold py_mod. destruct (decide (R = 0%Z)) as [?|Hne]; [lia|]. cbn [and_then].
    rewrite count_floor by done.
    rewrite drop_trailing_peers; [|done|].
    + cbn [and_then]. apply Ok_product_rounds; [by apply dict_wf_take| |done].
      by apply kept_nonempty.
    + assert (0 ≤ len peers / R)%Z by (apply Z.div_pos; unfold len; lia). nia.
Qed.

Lemma get_brick_list_no_volume_witness :
  get_brick_list 10 (Returns 3%Z) five_peers None
  = Some (Returns (Ok (round_robin (take 3 five_peers)))).
Proof.
  destruct (get_brick_list_no_volume (Returns 3%Z) 3 five_peers 10)
    as (_ & _ & Hmany).
  - apply (bool_decide_unpack _). reflexivity.
  - reflexivity.
  - lia.
  - apply Hmany; [reflexivity | simpl; lia].
Defined.

(** ** Readiness *)

(** C5.  [peers_are_ready] answers [True] exactly when the status of
    every peer of the list is [State.Connected]; a list with a peer whose
    status is [PeerInCluster] is not ready, whatever the others are. *)
Theorem peers_are_ready_iff_all_connected (peer_list : list Peer) :
  (peers_are_ready peer_list = true
   ↔ ∀ p, p ∈ peer_list → status p = Some Connected)
  ∧ (∀ before p after,
       peer_list = before ++ p :: after → status p = Some PeerInCluster →
       peers_are_ready peer_list = false).
Proof.
  assert (peers_are_ready peer_list = true
          ↔ ∀ p, p ∈ peer_list → status p = Some Connected) as Hiff.
  { unfold peers_are_ready. rewrite forallb_forall. split.
    - intros Hall p Hp. apply list_elem_of_In in Hp.
      by eapply bool_decide_eq_true_1, Hall.
    - intros Hall p Hp. apply bool_decide_eq_true_2, Hall.
      by apply list_elem_of_In. }
  split; [done|].
  intros before p after -> Hp. apply not_true_iff_false. rewrite Hiff.
  intros Hall. specialize (Hall p). rewrite Hp in Hall.
  assert (Some PeerInCluster = Some Connected) as [=]; apply Hall.
  apply elem_of_app. right. by left.
Qed.

Lemma peers_are_ready_iff_all_connected_witness :
  peers_are_ready
    [ mkPeer (Some 1%N) "10.0.0.1" (Some Connected);
      mkPeer (Some 2%N) "10.0.0.2" (Some PeerInCluster);
      mkPeer (Some 3%N) "10.0.0.3" (Some Connected) ] = false.
Proof.
  apply (proj2 (peers_are_ready_iff_all_connected _)
           [mkPeer (Some 1%N) "10.0.0.1" (Some Connected)]
           (mkPeer (Some 2%N) "10.0.0.2" (Some PeerInCluster))
           [mkPeer (Some 3%N) "10.0.0.3" (Some Connected)]);
    reflexivity.
Defined.

(** ** Parsing a state *)

Lemma find_state_none (s : string) :
  (∀ st, lower (value st) ≠ lower s) →
  find (λ state, String.eqb (lower (value state)) (lower s)) members = None.
Proof.
  intros Hno. unfold members. cbn [find].
  repeat (match goal with
          | |- context [String.eqb (lower (value ?st)) (lower s)] =>
              destruct (String.eqb_spec (lower (value st)) (lower s)) as [Heq|_];
              [by apply Hno in Heq|]
          end).
  done.
Qed.

Lemma find_state_some (s : string) (st : State) :
  lower (value st) = lower s → st ≠ Unknown →
  find (λ state, String.eqb (lower (value state)) (lower s)) members = Some st.
Proof.
  intros Heq Hst. rewrite <- Heq. by destruct st.
Qed.

Lemma lower_nonempty (s : string) : s ≠ EmptyString → lower s ≠ EmptyString.
Proof. by destruct s. Qed.

(** C8 (as amended).  For a non-empty string that equals, letter case
    apart, the value of a variant, [State.from_str] returns that variant;
    for every other string, and for the empty string although it is the
    value of [State.Unknown], it raises [ValueError]. *)
Theorem from_str_spec (s : string) :
  (s ≠ EmptyString → ∀ st, lower (value st) = lower s → from_str s = Returns st)
  ∧ (s = EmptyString ∨ (∀ st, lower (value st) ≠ lower s) →
     from_str s = Raises ValueError).
Proof.
  split.
  - intros Hs st Heq. unfold from_str.
    destruct s as [|c s]; [done|]. cbn [truthy].
    rewrite (find_state_some _ st); [done|done|].
    intros ->. simpl in Heq. discriminate.
  - intros [->|Hno]; [done|]. unfold from_str.
    rewrite find_state_none by done. by destruct (truthy s).
Qed.

Lemma from_str_spec_witness :
  from_str "Peer in Cluster" = Returns PeerInCluster
  ∧ from_str "peer in clusterx" = Raises ValueError.
Proof.
  split.
  - apply (proj1 (from_str_spec "Peer in Cluster")); [discriminate|reflexivity].
  - apply (proj2 (from_str_spec "peer in clusterx")). right.
    intros st; destruct st; vm_compute; discriminate.
Defined.

(** C8 as stated fails at the empty string: it is the value of
    [State.Unknown], and [from_str] raises. *)
Lemma from_str_empty_is_not_Unknown :
  lower (value Unknown) = lower EmptyString
  ∧ from_str EmptyString = Raises ValueError
  ∧ from_str EmptyString ≠ Returns Unknown.
Proof. by split_and!. Qed.

(** ** Waiting for the peers *)

Section wait_facts.
Variable peer_status : nat → outcome (list Peer).

Lemma wait_loop_busy fuel n :
  busy_at peer_status n → n < 600 →
  wait_loop (S fuel) peer_status (at_turn n)
  = wait_loop fuel peer_status (at_turn (S n)).
Proof.
  intros (l & Hl & Hbusy) Hn. cbn [wait_loop at_turn polls iterations slept].
  rewrite Hl, Hbusy. cbn [negb].
  rewrite bool_decide_eq_false_2 by lia.
  unfold at_turn. repeat f_equal; lia.
Qed.

Lemma wait_loop_last_busy fuel :
  busy_at peer_status 600 →
  wait_loop (S fuel) peer_status (at_turn 600)
  = Some (Returns (Err timeout_message), mkWait 601 601 601).
Proof.
  intros (l & Hl & Hbusy). cbn [wait_loop at_turn polls iterations slept].
  rewrite Hl, Hbusy. cbn [negb].
  by rewrite bool_decide_eq_true_2 by lia.
Qed.

Lemma wait_loop_ready fuel n :
  ready_at peer_status n →
  wait_loop (S fuel) peer_status (at_turn n)
  = Some (Returns (Ok ()), mkWait (S n) (Z.of_nat n) (Z.of_nat n)).
Proof.
  intros (l & Hl & Hready). cbn [wait_loop at_turn polls iterations slept].
  by rewrite Hl, Hready.
Qed.

(** Ready at poll [n + k] after [k] busy polls. *)
Lemma wait_loop_until_ready k : ∀ n fuel,
  k < fuel → n + k ≤ 600 →
  (∀ i, i < k → busy_at peer_status (n + i)) →
  ready_at peer_status (n + k) →
  wait_loop fuel peer_status (at_turn n)
  = Some (Returns (Ok ()),
          mkWait (S (n + k)) (Z.of_nat (n + k)) (Z.of_nat (n + k))).
Proof.
  induction k as [|k IH]; intros n fuel Hfuel Hle Hbusy Hready;
    (destruct fuel as [|fuel]; [lia|]).
  - rewrite Nat.add_0_r in *. by apply wait_loop_ready.
  - rewrite wait_loop_busy; [|specialize (Hbusy 0); rewrite Nat.add_0_r in Hbusy;
                               apply Hbusy; lia|lia].
    replace (n + S k) with (S n + k) in * by lia.
    apply IH; [lia|lia| |done].
    intros i Hi. replace (S n + i) with (n + S i) by lia. apply Hbusy. lia.
Qed.

(** Busy from poll [n] to poll 600. *)
Lemma wait_loop_never_ready k : ∀ n fuel,
  n + k = 600 → k < fuel →
  (∀ i, n ≤ i ≤ 600 → busy_at peer_status i) →
  wait_loop fuel peer_status (at_turn n)
  = Some (Returns (Err timeout_message), mkWait 601 601 601).
Proof.
  induction k as [|k IH]; intros n fuel Hn Hfuel Hbusy;
    (destruct fuel as [|fuel]; [lia|]).
  - replace n with 600 by lia. apply wait_loop_last_busy, Hbusy. lia.
  - rewrite wait_loop_busy; [|apply Hbusy; lia|lia].
    apply IH; [lia|lia|]. intros i Hi. apply Hbusy. lia.
Qed.

(** Whatever the polls answer, the loop is over within 601 turns. *)
Lemma wait_loop_total k : ∀ n fuel,
  n + k = 600 → k < fuel →
  ∃ r st, wait_loop fuel peer_status (at_turn n) = Some (r, st)
          ∧ polls st ≤ 601 ∧ (0 ≤ iterations st ≤ 601)%Z
          ∧ slept st = iterations st.
Proof.
  induction k as [|k IH]; intros n fuel Hn Hfuel;
    (destruct fuel as [|fuel]; [lia|]).
  - cbn [wait_loop at_turn polls iterations slept].
    destruct (peer_status n) as [l|e]; [|eexists _, _; split; [done|simpl; lia]].
    destruct (peers_are_ready l); cbn [negb];
      [eexists _, _; split; [done|simpl; lia]|].
    rewrite bool_decide_eq_true_2 by lia. eexists _, _; split; [done|simpl; lia].
  - destruct (peer_status n) as [l|e] eqn:Hl.
    + destruct (peers_are_ready l) eqn:Hready.
      * rewrite wait_loop_ready by (by exists l).
        eexists _, _; split; [done|simpl; lia].
      * rewrite wait_loop_busy; [|by exists l|lia]. apply IH; lia.
    + cbn [wait_loop at_turn polls iterations slept]. rewrite Hl.
      eexists _, _; split; [done|simpl; lia].
Qed.

End wait_facts.

(** C9 (as amended).  [wait_for_peers] polls, sleeps one second and polls
    again; it answers [Ok] at the first poll that finds the peers ready,
    provided that is one of the first 601; when the first 601 polls all
    find them not ready it answers [Err], after 601 turns and 601
    seconds; and whatever the polls answer it is over within 601 turns. *)
Theorem wait_for_peers_bounded (peer_status : nat → outcome (list Peer))
    (fuel : nat) :
  601 ≤ fuel →
  (∀ k, k ≤ 600 → (∀ i, i < k → busy_at peer_status i) → ready_at peer_status k →
     wait_for_peers fuel peer_status
     = Some (Returns (Ok ()), mkWait (S k) (Z.of_nat k) (Z.of_nat k)))
  ∧ ((∀ i, i ≤ 600 → busy_at peer_status i) →
     wait_for_peers fuel peer_status
     = Some (Returns (Err timeout_message), mkWait 601 601 601))
  ∧ (∃ r st, wait_for_peers fuel peer_status = Some (r, st)
             ∧ polls st ≤ 601 ∧ (0 ≤ iterations st ≤ 601)%Z
             ∧ slept st = iterations st).
Proof.
  intros Hfuel. unfold wait_for_peers. change (mkWait 0 0 0) with (at_turn 0).
  split_and!.
  - intros k Hk Hbusy Hready.
    by apply (wait_loop_until_ready peer_status k 0); [lia|lia|..].
  - intros Hbusy. apply (wait_loop_never_ready peer_status 600); [lia|lia|].
    intros i Hi. apply Hbusy. lia.
  - apply (wait_loop_total peer_status 600); lia.
Qed.

Lemma wait_for_peers_bounded_witness :
  wait_for_peers 700 (λ n, Returns [if decide (n = 2) then ready_peer else busy_peer])
  = Some (Returns (Ok ()), mkWait 3 2 2).
Proof.
  apply (proj1 (wait_for_peers_bounded _ 700 ltac:(lia)) 2); [lia| |].
  - intros i Hi. eexists. split; [reflexivity|].
    destruct i as [|[|i]]; [reflexivity|reflexivity|lia].
  - eexists. split; reflexivity.
Defined.

(** C9 as stated fails: peers that are never ready keep the loop for 601
    turns, one more than the ceiling of 600; and peers that are not ready
    in the first 600 turns and ready at the next poll get [Ok], not [Err]. *)
Lemma wait_for_peers_runs_601_turns :
  wait_for_peers 700 (λ _, Returns [busy_peer])
  = Some (Returns (Err timeout_message), mkWait 601 601 601)
  ∧ wait_for_peers 700
      (λ n, Returns [if bool_decide (n < 600) then busy_peer else ready_peer])
    = Some (Returns (Ok ()), mkWait 601 600 600).
Proof. split; vm_compute; reflexivity. Qed.

(** ** The marker store *)

Section marker_facts.
Implicit Types (w : world) (entries : gmap string fnode) (key : string).

Lemma write_timestamp_missing w key (t : Z) :
  fs w = Missing →
  write_timestamp key t w
  = (Returns (Err "No such file or directory"), emit (EvOpenWrite key) w).
Proof.
  intros Hfs.
  unfold write_timestamp, except_IOError, mbind, io_bind, open_w.
  by rewrite Hfs.
Qed.

End marker_facts.

Lemma gluster_key_set_missing (w : world) (key : string) (timestamp : Z) :
  fs w = Missing →
  gluster_key_set key timestamp w
  = (Returns (Err "No such file or directory"), emit (EvOpenWrite key) w).
Proof.
  intros Hfs. unfold gluster_key_set, mbind, io_bind, exists_upgrade_dir.
  rewrite Hfs. unfold mret, io_ret. by apply write_timestamp_missing.
Qed.

Lemma gluster_key_set_directory (w : world) (key : string) (timestamp : Z)
    (entries : gmap string fnode) :
  fs w = Directory entries →
  gluster_key_set key timestamp w = (Raises FileExistsError, emit EvMakedirs w).
Proof.
  intros Hfs.
  unfold gluster_key_set, mbind, io_bind, exists_upgrade_dir, makedirs.
  rewrite Hfs. cbn beta iota. by rewrite Hfs.
Qed.

(** C10.  [gluster_key_set] calls [os.makedirs] exactly when the marker
    directory exists, and then [makedirs] raises; when the directory is
    absent no directory is made, the [open] fails, the answer is [Err],
    and the store is as it was: no marker. *)
Theorem gluster_key_set_inverted_guard (w : world) (key : string) (timestamp : Z) :
  (fs w = Missing →
     gluster_key_set key timestamp w
     = (Returns (Err "No such file or directory"), emit (EvOpenWrite key) w))
  ∧ (∀ entries, fs w = Directory entries →
     gluster_key_set key timestamp w
     = (Raises FileExistsError, emit EvMakedirs w)).
Proof.
  split.
  - apply gluster_key_set_missing.
  - intros entries. apply gluster_key_set_directory.
Qed.

Lemma gluster_key_set_inverted_guard_witness :
  gluster_key_set "00000000-0000-0000-0000-000000000005_3.10_start" 100
                  (quiet_world Missing 100)
  = (Returns (Err "No such file or directory"),
     emit (EvOpenWrite "00000000-0000-0000-0000-000000000005_3.10_start")
          (quiet_world Missing 100)).
Proof.
  apply (proj1 (gluster_key_set_inverted_guard (quiet_world Missing 100) _ 100)).
  reflexivity.
Defined.

(** Whatever the state, a call of [gluster_key_set] leaves the store as
    it was and does not answer [Ok(())]. *)
Lemma gluster_key_set_stores_nothing (w : world) (key : string) (timestamp : Z) :
  fs (gluster_key_set key timestamp w).2 = fs w
  ∧ (gluster_key_set key timestamp w).1 ≠ Returns (Ok ()).
Proof.
  destruct (fs w) as [|entries] eqn:Hfs.
  - by rewrite gluster_key_set_missing.
  - by rewrite (gluster_key_set_directory w key timestamp entries).
Qed.

(** C3: the first write stores nothing.  After [gluster_key_set(k, 100)]
    and then [gluster_key_set(k, 200)] the key [k] holds no timestamp,
    where the claim expects [100], both with the marker directory absent
    and with it present and empty.  In every state, for every key and
    timestamps, neither call answers [Ok(())] and the store after the two
    calls is the store before them. *)
Theorem gluster_key_set_twice_stores_nothing :
  stored_timestamp
    (fs (gluster_key_set "k" 200
           (gluster_key_set "k" 100 (quiet_world Missing 100)).2).2) "k" = None
  ∧ stored_timestamp
      (fs (gluster_key_set "k" 200
             (gluster_key_set "k" 100 (quiet_world (Directory ∅) 100)).2).2) "k"
    = None
  ∧ ∀ (w : world) (key : string) (t1 t2 : Z),
      (gluster_key_set key t1 w).1 ≠ Returns (Ok ())
      ∧ (gluster_key_set key t2 (gluster_key_set key t1 w).2).1 ≠ Returns (Ok ())
      ∧ fs (gluster_key_set key t2 (gluster_key_set key t1 w).2).2 = fs w.
Proof.
  split; [reflexivity|]. split; [reflexivity|].
  intros w key t1 t2.
  destruct (gluster_key_set_stores_nothing w key t1) as [Hfs1 Hno1].
  destruct (gluster_key_set_stores_nothing (gluster_key_set key t1 w).2 key t2)
    as [Hfs2 Hno2].
  split; [exact Hno1|]. split; [exact Hno2|]. by rewrite Hfs2.
Qed.

(** ** Waiting for the previous node *)

Section wait_on_previous_node_facts.
Implicit Types (w : world) (entries : gmap string fnode) (key : string).

(** A marker file of text never gives a timestamp: its lines go to
    [json.loads] as a list. *)
Lemma gluster_key_get_regular_file w entries key content :
  fs w = Directory entries → entries !! key = Some (RegFile content) →
  gluster_key_get key w = (Raises TypeError, w).
Proof.
  intros Hfs Hkey.
  unfold gluster_key_get, mbind, io_bind, exists_upgrade_key.
  rewrite Hfs, Hkey. rewrite bool_decide_eq_true_2 by by eexists.
  cbn [negb]. unfold except_IOError, except_ValueError, open_r_readlines.
  by rewrite Hfs, Hkey.
Qed.

(** A marker file that is no text: [readlines] raises outside the inner
    [try], and [except IOError] does not catch it. *)
Lemma gluster_key_get_undecodable w entries key :
  fs w = Directory entries → entries !! key = Some BinFile →
  gluster_key_get key w = (Raises UnicodeDecodeError, w).
Proof.
  intros Hfs Hkey.
  unfold gluster_key_get, mbind, io_bind, exists_upgrade_key.
  rewrite Hfs, Hkey. rewrite bool_decide_eq_true_2 by by eexists.
  cbn [negb]. unfold except_IOError, except_ValueError, open_r_readlines.
  by rewrite Hfs, Hkey.
Qed.

Lemma gluster_key_get_absent w entries key :
  fs w = Directory entries → entries !! key = None →
  gluster_key_get key w = (Returns None, w).
Proof.
  intros Hfs Hkey.
  unfold gluster_key_get, mbind, io_bind, exists_upgrade_key.
  rewrite Hfs, Hkey. rewrite bool_decide_eq_false_2; [done|].
  by intros [? [=]].
Qed.

Lemma gluster_key_get_missing w key :
  fs w = Missing → gluster_key_get key w = (Returns None, w).
Proof.
  intros Hfs. unfold gluster_key_get, mbind, io_bind, exists_upgrade_key.
  by rewrite Hfs.
Qed.

Lemma exists_upgrade_key_pure w key :
  ∃ b, exists_upgrade_key key w = (Returns b, w).
Proof. by eexists. Qed.

(** [gluster_key_get] never answers a timestamp and never changes the
    world. *)
Lemma gluster_key_get_no_timestamp w key :
  gluster_key_get key w = (Returns None, w)
  ∨ gluster_key_get key w = (Raises TypeError, w)
  ∨ gluster_key_get key w = (Raises UnicodeDecodeError, w).
Proof.
  destruct (fs w) as [|entries] eqn:Hfs.
  - left. by apply gluster_key_get_missing.
  - destruct (entries !! key) as [[content| |]|] eqn:Hkey.
    + right. left. by eapply gluster_key_get_regular_file.
    + right. right. by eapply gluster_key_get_undecodable.
    + left. unfold gluster_key_get, mbind, io_bind, exists_upgrade_key.
      rewrite Hfs, Hkey. rewrite bool_decide_eq_true_2 by by eexists.
      cbn [negb]. unfold except_IOError, except_ValueError, open_r_readlines.
      by rewrite Hfs, Hkey.
    + left. by eapply gluster_key_get_absent.
Qed.

(** No [done] marker and no [start] marker: [Ok] at once, nothing slept. *)
Lemma wait_on_previous_node_no_start w entries previous_node version fuel :
  fs w = Directory entries →
  entries !! done_key previous_node version = None →
  entries !! start_key previous_node version = None →
  wait_on_previous_node (S fuel) previous_node version w
  = Some (Returns (Some (Ok ())), w).
Proof.
  intros Hfs Hdone Hstart.
  unfold wait_on_previous_node, bindf, lift, gluster_key_exists, exists_upgrade_key.
  rewrite Hfs. fold (done_key previous_node version). rewrite Hdone.
  rewrite bool_decide_eq_false_2 by (by intros [? [=]]).
  cbn [wait_while negb]. unfold wait_body, mbind, io_bind, time_time.
  fold (start_key previous_node version).
  by rewrite (gluster_key_get_absent _ entries).
Qed.

(** No [done] marker and a [start] marker of text: [TypeError], whatever
    the text is and whatever the time is. *)
Lemma wait_on_previous_node_start_present
    w entries previous_node version content fuel :
  fs w = Directory entries →
  entries !! done_key previous_node version = None →
  entries !! start_key previous_node version = Some (RegFile content) →
  wait_on_previous_node (S fuel) previous_node version w
  = Some (Raises TypeError, w).
Proof.
  intros Hfs Hdone Hstart.
  unfold wait_on_previous_node, bindf, lift, gluster_key_exists, exists_upgrade_key.
  rewrite Hfs. fold (done_key previous_node version). rewrite Hdone.
  rewrite bool_decide_eq_false_2 by (by intros [? [=]]).
  cbn [wait_while negb]. unfold wait_body, mbind, io_bind, time_time.
  fold (start_key previous_node version).
  by rewrite (gluster_key_get_regular_file _ entries _ content).
Qed.

(** [wait_on_previous_node] never sleeps. *)
Lemma wait_on_previous_node_never_sleeps w previous_node version fuel :
  ∃ r, wait_on_previous_node (S fuel) previous_node version w = Some (r, w).
Proof.
  unfold wait_on_previous_node, bindf, lift, gluster_key_exists.
  destruct (exists_upgrade_key_pure w
              (marker_key (str_opt_uuid (uuid previous_node)) version "done"))
    as [[] ->]; cbn [wait_while negb]; [by eexists|].
  unfold wait_body, mbind, io_bind, time_time.
  destruct (gluster_key_get_no_timestamp w
              (marker_key (str_opt_uuid (uuid previous_node)) version "start"))
    as [-> | [-> | ->]]; by eexists.
Qed.

End wait_on_previous_node_facts.

(** C6: the behaviour claimed for a present [start] marker is not what
    the code does.  With no [done] marker and a [start] marker holding
    100, [wait_on_previous_node] raises [TypeError] both at time 800,
    where the claim has it return at once, and at time 110, where the
    claim has it sleep and poll again.  Nothing is slept in either run. *)
Theorem wait_on_previous_node_start_marker_raises :
  let previous_node := mkPeer (Some 4%N) "10.0.0.4" (Some Connected) in
  let store := Directory {[ start_key previous_node "3.10" := RegFile "100" ]} in
  wait_on_previous_node 10 previous_node "3.10" (quiet_world store 800)
  = Some (Raises TypeError, quiet_world store 800)
  ∧ wait_on_previous_node 10 previous_node "3.10" (quiet_world store 110)
    = Some (Raises TypeError, quiet_world store 110).
Proof.
  intros previous_node store.
  split; eapply wait_on_previous_node_start_present;
    solve [reflexivity | by vm_compute].
Qed.

(** ** Rolling the cluster *)

Section roll_cluster_facts.
Implicit Types (w : world) (version : string).



(** As soon as the local UUID is known and [volume_info] has answered,
    [roll_cluster] raises: the answer is a list, which has no [value]. *)
Lemma roll_cluster_attribute_error w version fuel (u : UUID) (l : list Volume) :
  local_uuid w = Returns (Ok u) → volume_info w = Returns l →
  roll_cluster fuel version w = Some (Raises AttributeError, w).
Proof.
  intros Hu Hl.
  unfold roll_cluster, bindf, lift, get_local_uuid. rewrite Hu.
  unfold except_ParseError_f, get_volume_info. by rewrite Hl.
Qed.

End roll_cluster_facts.

(** C7: on a host that knows its UUID, once [volume_info] has answered,
    [roll_cluster] raises [AttributeError] before it sorts anything: no
    marker is written and no upgrade step runs (the trace stays empty). *)
Theorem roll_cluster_raises_before_sorting :
  roll_cluster 10 "3.10" (quiet_world (Directory ∅) 100)
  = Some (Raises AttributeError, quiet_world (Directory ∅) 100)
  ∧ roll_cluster 10 "3.10" (quiet_world Missing 100)
    = Some (Raises AttributeError, quiet_world Missing 100).
Proof. split; by eapply roll_cluster_attribute_error. Qed.

(** C2: with an existing volume [get_brick_list] raises [TypeError]
    before it looks for new peers.  Its first step formats the volume for
    a log line, [Volume.__str__] hands back a dict, and no brick list is
    computed: not for the five peers and three replicas where the claim
    expects the first three new peers, and not for any other peer map,
    volume, replication level (read, or unreadable and so 3) or fuel. *)
Theorem get_brick_list_volume_raises_TypeError :
  get_brick_list 10 (Returns 3%Z) five_peers (Some sample_volume)
  = Some (Raises TypeError)
  ∧ ∀ (fuel : nat) (R : Z) (peers : dict PeerEntry) (volume : Volume),
      get_brick_list fuel (Returns R) peers (Some volume) = Some (Raises TypeError)
      ∧ get_brick_list fuel (Raises ValueError) peers (Some volume)
        = Some (Raises TypeError).
Proof. split; [reflexivity | intros; split; reflexivity]. Qed.

(** C1 as stated fails at the empty map: the loop guard holds for ever
    and no list is returned, with whatever fuel. *)
Lemma brick_and_server_product_no_peers :
  ¬ ∃ fuel r, brick_and_server_product fuel [] = Some r.
Proof.
  intros (fuel & r & Hr). unfold brick_and_server_product, deepcopy in Hr.
  by rewrite product_loop_no_peers in Hr.
Qed.

(** ** The examples of the specification and of unit_tests/test_lib.py *)

(** Equal numbers of devices: [A:a1, B:b1, A:a2, B:b2]. *)
Example product_equal_devices :
  brick_and_server_product 5 two_peers_equal
  = Some (Returns [ new_brick (mkEntry "hostA" []) "a1";
                    new_brick (mkEntry "hostB" []) "b1";
                    new_brick (mkEntry "hostA" []) "a2";
                    new_brick (mkEntry "hostB" []) "b2" ]).
Proof. reflexivity. Qed.

(** Unequal numbers of devices: [A:a1, B:b1], and [b2] is left. *)
Example product_unequal_devices :
  brick_and_server_product 5 two_peers_unequal
  = Some (Returns [ new_brick (mkEntry "hostA" []) "a1";
                    new_brick (mkEntry "hostB" []) "b1" ]).
Proof. reflexivity. Qed.

(** Two peers and three replicas: wait for more peers. *)
Example two_peers_three_replicas :
  get_brick_list 0 (Returns 3%Z) two_peers_equal None
  = Some (Returns (Err WaitForMorePeers)).
Proof. reflexivity. Qed.

(** A replication level that [int] rejects counts as three. *)
Example unparsable_replication_level :
  get_brick_list 5 (Raises ValueError) five_peers None
  = get_brick_list 5 (Returns 3%Z) five_peers None.
Proof. reflexivity. Qed.

(** [testFindNewPeers]: of two peers the one that serves a brick is old. *)
Example find_new_peers_test :
  find_new_peers
    [ ("glusterfs-0", mkEntry "10.0.0.1" ["/mnt/brick1"]);
      ("glusterfs-1", mkEntry "10.0.0.2" []) ]
    sample_volume
  = Returns [ ("glusterfs-1", mkEntry "10.0.0.2" []) ].
Proof. reflexivity. Qed.

(** [testPeersAreNotReady] and [testPeersAreReady]. *)
Example peers_are_not_ready_test :
  peers_are_ready [ mkPeer (Some 1%N) "host-b" (Some PeerInCluster);
                    mkPeer (Some 2%N) "host-c" (Some AcceptedPeerRequest) ]
  = false.
Proof. reflexivity. Qed.

Example peers_are_ready_test :
  peers_are_ready [ mkPeer (Some 1%N) "host-b" (Some Connected);
                    mkPeer (Some 2%N) "host-c" (Some Connected) ]
  = true.
Proof. reflexivity. Qed.

(** * More of the code: the planner *)

Section planner_more.
Implicit Types (peers : dict PeerEntry) (volume : Volume).

(** Whenever the placement loop returns, it returns the round robin. *)
Lemma product_loop_returns fuel : ∀ peers product r,
  dict_wf peers → peers ≠ [] →
  product_loop fuel peers product = Some r →
  r = Returns (product ++ round_robin peers).
Proof.
  induction fuel as [|fuel IH]; intros peers product r Hwf Hne Hr; [done|].
  cbn [product_loop] in Hr. rewrite all_have_bricks_spec in Hr by done.
  destruct (bool_decide_reflect (Forall has_device peers)) as [Hdev|Hdev].
  - rewrite product_pass in Hr by done.
    apply IH in Hr; [|by apply dict_wf_drop_devices|by apply drop_devices_nonempty].
    subst r. f_equal. rewrite <- app_assoc. f_equal.
    unfold round_robin. rewrite min_devices_drop.
    apply min_devices_pos in Hdev; [|done].
    destruct (min_devices peers) as [|m]; [lia|].
    cbn [seq flat_map Nat.pred]. by rewrite rounds_shift.
  - injection Hr as <-. f_equal.
    rewrite <- min_devices_pos in Hdev by done.
    unfold round_robin. replace (min_devices peers) with 0 by lia.
    simpl. by rewrite app_nil_r.
Qed.

Lemma new_peers_of_sublist peers volume : new_peers_of peers volume `sublist_of` peers.
Proof. apply sublist_filter. Qed.

Lemma new_peers_of_wf peers volume : dict_wf peers → dict_wf (new_peers_of peers volume).
Proof.
  unfold dict_wf, keys. intros Hwf. eapply sublist_NoDup; [done|].
  apply fmap_sublist, new_peers_of_sublist.
Qed.

End planner_more.

(** X1.  For a peer map with distinct keys [find_new_peers] does not
    raise, and it returns, in the order of the map and with distinct keys,
    exactly the entries whose address is the hostname of the peer of no
    brick of the volume. *)
Theorem find_new_peers_keeps_the_new (peers : dict PeerEntry) (volume : Volume) :
  dict_wf peers →
  ∃ new_peers,
    find_new_peers peers volume = Returns new_peers
    ∧ new_peers `sublist_of` peers
    ∧ dict_wf new_peers
    ∧ (∀ k e, (k, e) ∈ new_peers
              ↔ (k, e) ∈ peers
                ∧ ∀ brick, brick ∈ volume_py.bricks volume →
                           hostname (peer brick) ≠ address e).
Proof.
  intros Hwf. exists (new_peers_of peers volume). split_and!.
  - by apply find_new_peers_spec.
  - apply new_peers_of_sublist.
  - by apply new_peers_of_wf.
  - intros k e. unfold new_peers_of. rewrite list_elem_of_filter, Forall_forall.
    simpl. tauto.
Qed.

Lemma find_new_peers_keeps_the_new_witness :
  ∃ new_peers,
    find_new_peers five_peers sample_volume = Returns new_peers
    ∧ new_peers `sublist_of` five_peers
    ∧ dict_wf new_peers
    ∧ (∀ k e, (k, e) ∈ new_peers
              ↔ (k, e) ∈ five_peers
                ∧ ∀ brick, brick ∈ volume_py.bricks sample_volume →
                           hostname (peer brick) ≠ address e).
Proof.
  apply (find_new_peers_keeps_the_new five_peers sample_volume).
  apply (bool_decide_unpack _). reflexivity.
Defined.

Section replica_sets.
Implicit Types (peers kept : dict PeerEntry).

Lemma Ok_product_returns fuel peers product :
  dict_wf peers → peers ≠ [] →
  Ok_product (brick_and_server_product fuel peers) = Some (Returns (Ok product)) →
  product = round_robin peers.
Proof.
  intros Hwf Hne. unfold brick_and_server_product, deepcopy.
  destruct (product_loop fuel peers []) as [r|] eqn:Hr; [|done].
  apply product_loop_returns in Hr; [|done|done]. subst r. simpl.
  by intros [= <-].
Qed.

(** What [get_brick_list] returns without a volume: the round robin over
    the first [floor(N/R)*R] entries, of which there are some. *)
Lemma get_brick_list_no_volume_kept (cfg : outcome Z) (R : Z) peers fuel product :
  dict_wf peers → replicas_of cfg = Returns R → (0 < R)%Z →
  get_brick_list fuel cfg peers None = Some (Returns (Ok product)) →
  ∃ c : nat, 0 < c ∧ c * Z.to_nat R ≤ length peers
    ∧ product = round_robin (take (c * Z.to_nat R) peers).
Proof.
  intros Hwf Hcfg HR. unfold get_brick_list. rewrite Hcfg. cbn [and_then].
  case_bool_decide as Hlt; [done|]. case_bool_decide as Heq.
  - intros Hp. apply Ok_product_returns in Hp; [|done|].
    + exists 1. unfold len in Heq. split_and!; [lia|lia|].
      rewrite take_ge by lia. done.
    + intros ->. unfold len in Heq. simpl in Heq. lia.
  - unfold py_mod. destruct (decide (R = 0%Z)) as [?|Hne]; [lia|]. cbn [and_then].
    rewrite count_floor by done.
    assert (1 ≤ len peers / R)%Z as Hc by (apply Z.div_le_lower_bound; lia).
    assert (len peers / R * R ≤ len peers)%Z as Hle
      by (rewrite Z.mul_comm; apply Z.mul_div_le; lia).
    rewrite drop_trailing_peers; [|done|nia]. cbn [and_then].
    assert (Z.to_nat (len peers / R * R) = Z.to_nat (len peers / R) * Z.to_nat R)
      as Hk by (rewrite Z2Nat.inj_mul; lia).
    intros Hp. apply Ok_product_returns in Hp;
      [|by apply dict_wf_take|apply kept_nonempty; lia].
    exists (Z.to_nat (len peers / R)). rewrite <- Hk. unfold len in *.
    split_and!; [lia|lia|done].
Qed.

Lemma lookup_round_robin_host kept p b :
  round_robin kept !! p = Some b →
  ∃ k e, kept !! (p mod length kept) = Some (k, e)
         ∧ hostname (peer b) = address e.
Proof.
  intros Hp. pose proof (lookup_lt_Some _ _ _ Hp) as Hlt.
  rewrite length_round_robin in Hlt.
  assert (0 < length kept) as HK by (destruct kept; simpl in *; lia).
  pose proof (Nat.div_mod_eq p (length kept)) as Hdm.
  pose proof (Nat.mod_upper_bound p (length kept) ltac:(lia)) as Hmod.
  assert (p / length kept < min_devices kept) as Hj
    by (apply Nat.Div0.div_lt_upper_bound; lia).
  unfold round_robin in Hp.
  replace p with (p / length kept * length kept + p mod length kept) in Hp at 1
    by lia.
  rewrite (lookup_blocks _ (length kept)) in Hp;
    [|intros; apply length_round|done|done].
  unfold round in Hp. rewrite list_lookup_fmap in Hp.
  destruct (kept !! (p mod length kept)) as [[k e]|] eqn:Hke; [|done].
  simpl in Hp. injection Hp as <-. by exists k, e.
Qed.

(** Two positions of one group of [r] fall on two entries of a round of
    [c * r] entries. *)
Lemma same_group_different_entry (r c p q : nat) :
  0 < r → 0 < c → p ≠ q → p / r = q / r → p mod (c * r) ≠ q mod (c * r).
Proof.
  intros Hr Hc Hpq Hg Hmod.
  pose proof (Nat.div_mod_eq p r) as Hp. pose proof (Nat.div_mod_eq q r) as Hq.
  pose proof (Nat.mod_upper_bound p r ltac:(lia)) as Ha.
  pose proof (Nat.mod_upper_bound q r ltac:(lia)) as Hb.
  pose proof (Nat.div_mod_eq p (c * r)) as Hp'.
  pose proof (Nat.div_mod_eq q (c * r)) as Hq'.
  rewrite Hg in Hp. rewrite Hmod in Hp'.
  set (g := q / r) in *. set (a := p mod r) in *. set (b := q mod r) in *.
  set (u := p / (c * r)) in *. set (v := q / (c * r)) in *.
  set (x := q mod (c * r)) in *.
  assert (r ≤ c * r) as HK by nia.
  destruct (lt_eq_lt_dec u v) as [[Hlt|Heq]|Hgt].
  - assert (c * r * u + c * r ≤ c * r * v) by nia. lia.
  - rewrite Heq in Hp'. lia.
  - assert (c * r * v + c * r ≤ c * r * u) by nia. lia.
Qed.

End replica_sets.

(** X4.  Without a volume and with [R >= 1] replicas, the list that
    [get_brick_list] returns holds whole replica sets: its length is a
    multiple of [R]. *)
Theorem get_brick_list_whole_replica_sets (cfg : outcome Z) (R : Z)
    (peers : dict PeerEntry) (fuel : nat) (product : list Brick) :
  dict_wf peers → replicas_of cfg = Returns R → (0 < R)%Z →
  get_brick_list fuel cfg peers None = Some (Returns (Ok product)) →
  (R | len product)%Z.
Proof.
  intros Hwf Hcfg HR Hp.
  destruct (get_brick_list_no_volume_kept _ _ _ _ _ Hwf Hcfg HR Hp)
    as (c & Hc & Hle & ->).
  unfold len. rewrite length_round_robin, length_take.
  exists (Z.of_nat (min_devices (take (c * Z.to_nat R) peers) * c)). nia.
Qed.

Lemma get_brick_list_whole_replica_sets_witness :
  (3 | len (round_robin (take 3 five_peers)))%Z.
Proof.
  apply (get_brick_list_whole_replica_sets (Returns 3%Z) 3 five_peers 10).
  - apply (bool_decide_unpack _). reflexivity.
  - reflexivity.
  - lia.
  - reflexivity.
Defined.

(** X5.  Without a volume, with [R >= 1] replicas and peers of pairwise
    different addresses, no replica set has two bricks on one host: two
    bricks at different positions of the same group of [R] consecutive
    positions of the returned list have different hostnames. *)
Theorem get_brick_list_replica_set_hosts_differ (cfg : outcome Z) (R : Z)
    (peers : dict PeerEntry) (fuel : nat) (product : list Brick) :
  dict_wf peers → NoDup ((λ ke, address ke.2) <$> peers) →
  replicas_of cfg = Returns R → (0 < R)%Z →
  get_brick_list fuel cfg peers None = Some (Returns (Ok product)) →
  ∀ p q b1 b2,
    product !! p = Some b1 → product !! q = Some b2 →
    p ≠ q → p / Z.to_nat R = q / Z.to_nat R →
    hostname (peer b1) ≠ hostname (peer b2).
Proof.
  intros Hwf Haddr Hcfg HR Hp p q b1 b2 H1 H2 Hpq Hgroup.
  destruct (get_brick_list_no_volume_kept _ _ _ _ _ Hwf Hcfg HR Hp)
    as (c & Hc & Hle & ->).
  apply lookup_round_robin_host in H1 as (k1 & e1 & Hk1 & ->).
  apply lookup_round_robin_host in H2 as (k2 & e2 & Hk2 & ->).
  rewrite length_take, Nat.min_l in Hk1, Hk2 by done.
  apply lookup_take_Some in Hk1 as [Hk1 _], Hk2 as [Hk2 _].
  intros Heq.
  apply (same_group_different_entry (Z.to_nat R) c p q); [lia|done|done|done|].
  eapply (NoDup_lookup _ _ _ (address e1) Haddr).
  - by rewrite list_lookup_fmap, Hk1.
  - by rewrite list_lookup_fmap, Hk2, Heq.
Qed.

Lemma get_brick_list_replica_set_hosts_differ_witness :
  round_robin (take 3 five_peers) !! 0
  = Some (new_brick (mkEntry "10.0.0.1" ["/mnt/vdb1"]) "/mnt/vdb1")
  ∧ round_robin (take 3 five_peers) !! 2
    = Some (new_brick (mkEntry "10.0.0.3" ["/mnt/vdb1"]) "/mnt/vdb1")
  ∧ hostname (peer (new_brick (mkEntry "10.0.0.1" ["/mnt/vdb1"]) "/mnt/vdb1"))
    ≠ hostname (peer (new_brick (mkEntry "10.0.0.3" ["/mnt/vdb1"]) "/mnt/vdb1")).
Proof.
  split; [reflexivity|]. split; [reflexivity|].
  apply (get_brick_list_replica_set_hosts_differ (Returns 3%Z) 3 five_peers 10
           (round_robin (take 3 five_peers))) with (p := 0) (q := 2).
  - apply (bool_decide_unpack _). reflexivity.
  - apply (bool_decide_unpack _). reflexivity.
  - reflexivity.
  - lia.
  - reflexivity.
  - reflexivity.
  - reflexivity.
  - lia.
  - reflexivity.
Defined.

(** X6.  A replication level of zero: with at least one peer and no
    volume [get_brick_list] raises [ZeroDivisionError]; with no peer at
    all it never returns. *)
Theorem get_brick_list_zero_replicas (cfg : outcome Z) (peers : dict PeerEntry)
    (fuel : nat) :
  replicas_of cfg = Returns 0%Z →
  (peers ≠ [] → get_brick_list fuel cfg peers None = Some (Raises ZeroDivisionError))
  ∧ (peers = [] → get_brick_list fuel cfg peers None = None).
Proof.
  intros Hcfg. unfold get_brick_list. rewrite Hcfg. cbn [and_then]. split.
  - intros Hne. destruct peers as [|ke peers]; [done|].
    rewrite bool_decide_eq_false_2 by (unfold len; simpl; lia).
    rewrite bool_decide_eq_false_2 by (unfold len; simpl; lia).
    done.
  - intros ->. simpl. unfold brick_and_server_product, deepcopy.
    by rewrite product_loop_no_peers.
Qed.

Lemma get_brick_list_zero_replicas_witness :
  get_brick_list 10 (Returns 0%Z) five_peers None = Some (Raises ZeroDivisionError).
Proof.
  apply (proj1 (get_brick_list_zero_replicas (Returns 0%Z) five_peers 10 eq_refl)).
  discriminate.
Defined.

(** * More of the code: readiness and the upgrade markers *)

Section wait_raises.
Variable peer_status : nat → outcome (list Peer).

Lemma wait_loop_raises fuel n e :
  peer_status n = Raises e →
  wait_loop (S fuel) peer_status (at_turn n)
  = Some (Raises e, mkWait (S n) (Z.of_nat n) (Z.of_nat n)).
Proof.
  intros He. cbn [wait_loop at_turn polls iterations slept]. by rewrite He.
Qed.

Lemma wait_loop_until_raise k : ∀ n fuel e,
  k < fuel → n + k ≤ 600 →
  (∀ i, i < k → busy_at peer_status (n + i)) →
  peer_status (n + k) = Raises e →
  wait_loop fuel peer_status (at_turn n)
  = Some (Raises e, mkWait (S (n + k)) (Z.of_nat (n + k)) (Z.of_nat (n + k))).
Proof.
  induction k as [|k IH]; intros n fuel e Hfuel Hle Hbusy He;
    (destruct fuel as [|fuel]; [lia|]).
  - rewrite Nat.add_0_r in *. by apply wait_loop_raises.
  - rewrite wait_loop_busy; [|specialize (Hbusy 0); rewrite Nat.add_0_r in Hbusy;
                               apply Hbusy; lia|lia].
    replace (n + S k) with (S n + k) in * by lia.
    apply IH; [lia|lia| |done].
    intros i Hi. replace (S n + i) with (n + S i) by lia. apply Hbusy. lia.
Qed.

End wait_raises.

(** X7.  An exception of [peer_status()] ends [wait_for_peers] at once:
    when the first [k <= 600] polls find the peers not ready and the next
    one raises, [wait_for_peers] raises the same exception after [k]
    seconds of sleep, and polls no more. *)
Theorem wait_for_peers_poll_raises (peer_status : nat → outcome (list Peer))
    (fuel k : nat) (e : exn) :
  k ≤ 600 → k < fuel →
  (∀ i, i < k → busy_at peer_status i) →
  peer_status k = Raises e →
  wait_for_peers fuel peer_status
  = Some (Raises e, mkWait (S k) (Z.of_nat k) (Z.of_nat k)).
Proof.
  intros Hk Hfuel Hbusy He. unfold wait_for_peers.
  change (mkWait 0 0 0) with (at_turn 0).
  by apply (wait_loop_until_raise peer_status k 0).
Qed.

Lemma wait_for_peers_poll_raises_witness :
  wait_for_peers 5
    (λ n, if decide (n = 1) then Raises ValueError else Returns [busy_peer])
  = Some (Raises ValueError, mkWait 2 1 1).
Proof.
  apply (wait_for_peers_poll_raises _ 5 1 ValueError); [lia|lia| |reflexivity].
  intros i Hi. exists [busy_peer]. destruct i as [|i]; [done|lia].
Defined.

(** The ways [gluster_key_get] ends. *)
Lemma gluster_key_get_cases (w : world) (key : string) :
  gluster_key_get key w
  = (match fs w with
     | Directory entries =>
         match entries !! key with
         | Some (RegFile _) => Raises TypeError
         | Some BinFile => Raises UnicodeDecodeError
         | _ => Returns None
         end
     | Missing => Returns None
     end, w).
Proof.
  destruct (fs w) as [|entries] eqn:Hfs.
  - by apply gluster_key_get_missing.
  - destruct (entries !! key) as [[content| |]|] eqn:Hkey.
    + by eapply gluster_key_get_regular_file.
    + by eapply gluster_key_get_undecodable.
    + unfold gluster_key_get, mbind, io_bind, exists_upgrade_key.
      rewrite Hfs, Hkey. rewrite bool_decide_eq_true_2 by by eexists.
      cbn [negb]. unfold except_IOError, except_ValueError, open_r_readlines.
      by rewrite Hfs, Hkey.
    + by eapply gluster_key_get_absent.
Qed.

(** X8.  [gluster_key_get] never answers a timestamp and never changes
    anything: for the key of a file of text it raises [TypeError],
    whatever the text is; for a file whose bytes are no text in the
    locale's encoding it raises [UnicodeDecodeError]; and in every other
    case (no marker directory, no such file, a file that cannot be
    opened) it answers [None]. *)
Theorem gluster_key_get_never_a_timestamp (w : world) (key : string) :
  gluster_key_get key w
  = (match fs w with
     | Directory entries =>
         match entries !! key with
         | Some (RegFile _) => Raises TypeError
         | Some BinFile => Raises UnicodeDecodeError
         | _ => Returns None
         end
     | Missing => Returns None
     end, w).
Proof. apply gluster_key_get_cases. Qed.

(** X9.  [wait_on_previous_node] is over in its first turn and never
    sleeps: with the [done] marker of the previous node present it ends
    without a [return] (the caller gets [None]); otherwise it raises
    [TypeError] when the [start] marker is a file of text,
    [UnicodeDecodeError] when it is a file whose bytes are no text, and
    returns [Ok(())] when there is no [start] marker or it cannot be
    opened.  The world is left as it was. *)
Theorem wait_on_previous_node_one_turn (w : world) (previous_node : Peer)
    (version : string) (fuel : nat) :
  wait_on_previous_node (S fuel) previous_node version w
  = Some
      (match fs w with
       | Missing => Returns (Some (Ok ()))
       | Directory entries =>
           match entries !! done_key previous_node version with
           | Some _ => Returns None
           | None =>
               match entries !! start_key previous_node version with
               | Some (RegFile _) => Raises TypeError
               | Some BinFile => Raises UnicodeDecodeError
               | _ => Returns (Some (Ok ()))
               end
           end
       end, w).
Proof.
  unfold wait_on_previous_node, bindf, lift, gluster_key_exists, exists_upgrade_key.
  fold (done_key previous_node version).
  destruct (fs w) as [|entries] eqn:Hfs.
  - cbn [wait_while negb]. unfold wait_body, mbind, io_bind, time_time.
    by rewrite (gluster_key_get_missing w _ Hfs).
  - destruct (entries !! done_key previous_node version) as [node|] eqn:Hdone.
    + by rewrite bool_decide_eq_true_2 by by eexists.
    + rewrite bool_decide_eq_false_2 by (by intros [? [=]]).
      cbn [wait_while negb]. unfold wait_body, mbind, io_bind, time_time.
      fold (start_key previous_node version).
      rewrite gluster_key_get_cases.
      rewrite Hfs.
      by destruct (entries !! start_key previous_node version) as [[content| |]|].
Qed.



(** * More of the code: printing, equality and parsing *)

Import objects_py volume_enums block_py.

(** X11.  Printing a state and parsing it back gives the state, for
    every state but [Unknown]: its text is empty and [from_str] raises
    [ValueError] for it.  No two states print the same. *)
Theorem State_str_from_str :
  (∀ st, st ≠ Unknown → from_str (State_str st) = Returns st)
  ∧ from_str (State_str Unknown) = Raises ValueError
  ∧ (∀ st1 st2, State_str st1 = State_str st2 → st1 = st2).
Proof.
  split_and!.
  - intros st Hst. by destruct st.
  - reflexivity.
  - intros st1 st2. destruct st1, st2; simpl; try reflexivity; discriminate.
Qed.

Lemma State_str_from_str_witness :
  from_str (State_str PeerRejected) = Returns PeerRejected.
Proof. apply (proj1 State_str_from_str). discriminate. Defined.

Section brick_equality.
Implicit Types (peers : dict PeerEntry).

Lemma list_eq_app {A} (eq : A → A → bool) (l1 l2 k1 k2 : list A) :
  list_eq eq l1 k1 = true → list_eq eq l2 k2 = true →
  list_eq eq (l1 ++ l2) (k1 ++ k2) = true.
Proof.
  revert k1. induction l1 as [|x l1 IH]; intros [|y k1]; simpl; try done.
  intros [Hxy H1]%andb_true_iff H2. by rewrite Hxy, IH.
Qed.

Lemma min_devices_same_bricks peers peers' :
  Forall2 (λ ke ke', bricks ke.2 = bricks ke'.2) peers peers' →
  min_devices peers = min_devices peers'.
Proof.
  intros Hsame. destruct Hsame as [|[k e] [k' e'] peers peers' He Hrest]; [done|].
  simpl in *. rewrite He. clear He.
  induction Hrest as [|ke ke' peers peers' He' _ IH]; simpl; [done|].
  by rewrite IH, He'.
Qed.

Lemma round_same_bricks peers peers' j :
  Forall2 (λ ke ke', bricks ke.2 = bricks ke'.2) peers peers' →
  list_eq Brick_eq (round peers j) (round peers' j) = true.
Proof.
  induction 1 as [|ke ke' peers peers' He _ IH]; [done|].
  unfold round in *. cbn [fmap list_fmap list_eq].
  apply andb_true_iff. split; [|exact IH].
  rewrite He. unfold Brick_eq, Peer_eq, new_brick. simpl.
  by rewrite String.eqb_refl.
Qed.

Lemma round_robin_same_bricks peers peers' :
  Forall2 (λ ke ke', bricks ke.2 = bricks ke'.2) peers peers' →
  list_eq Brick_eq (round_robin peers) (round_robin peers') = true.
Proof.
  intros Hsame. unfold round_robin.
  rewrite <- (min_devices_same_bricks _ _ Hsame).
  induction (seq 0 (min_devices peers)) as [|j js IH]; [done|].
  simpl. apply list_eq_app; [by apply round_same_bricks|done].
Qed.

End brick_equality.

(** X12.  Equality of bricks does not see the host.  Two peer maps with
    the same lists of device paths, whatever their addresses, give brick
    lists that compare equal: the bricks of [brick_and_server_product]
    have no uuid, [Peer.__eq__] compares uuids only, and so
    [Brick.__eq__] is left with the paths. *)
Theorem brick_lists_equal_whatever_the_hosts (peers peers' : dict PeerEntry)
    (fuel fuel' : nat) (product product' : list Brick) :
  dict_wf peers → dict_wf peers' → peers ≠ [] →
  Forall2 (λ ke ke', bricks ke.2 = bricks ke'.2) peers peers' →
  brick_and_server_product fuel peers = Some (Returns product) →
  brick_and_server_product fuel' peers' = Some (Returns product') →
  list_eq Brick_eq product product' = true.
Proof.
  intros Hwf Hwf' Hne Hsame Hp Hp'.
  assert (peers' ≠ []) as Hne' by (destruct Hsame; done).
  unfold brick_and_server_product, deepcopy in *.
  apply product_loop_returns in Hp; [|done|done].
  apply product_loop_returns in Hp'; [|done|done].
  injection Hp as ->. injection Hp' as ->. simpl.
  by apply round_robin_same_bricks.
Qed.

Lemma brick_lists_equal_whatever_the_hosts_witness :
  list_eq Brick_eq
    (round_robin two_peers_equal)
    (round_robin [ ("glusterfs-0", mkEntry "server1" ["a1"; "a2"]);
                   ("glusterfs-1", mkEntry "server2" ["b1"; "b2"]) ])
  = true.
Proof.
  apply (brick_lists_equal_whatever_the_hosts
           two_peers_equal
           [ ("glusterfs-0", mkEntry "server1" ["a1"; "a2"]);
             ("glusterfs-1", mkEntry "server2" ["b1"; "b2"]) ] 5 5).
  - apply (bool_decide_unpack _). reflexivity.
  - apply (bool_decide_unpack _). reflexivity.
  - discriminate.
  - repeat constructor.
  - reflexivity.
  - reflexivity.
Defined.

Section brick_names.

Lemma string_app_cons (c : ascii) (s1 s2 : string) :
  (String c s1 ++ s2)%string = String c (s1 ++ s2)%string.
Proof. reflexivity. Qed.

Lemma string_app_nil_r (s : string) : (s ++ EmptyString)%string = s.
Proof.
  induction s as [|c s IH]; [done|]. by rewrite string_app_cons, IH.
Qed.

Lemma string_app_assoc (s1 s2 s3 : string) :
  (s1 ++ (s2 ++ s3))%string = ((s1 ++ s2) ++ s3)%string.
Proof.
  induction s1 as [|c s1 IH]; [done|]. by rewrite !string_app_cons, IH.
Qed.

Lemma split_at_no_sep (sep : ascii) (s cur : string) :
  has_char sep s = false → split_at sep cur s = [(cur ++ s)%string].
Proof.
  revert cur. induction s as [|c s IH]; intros cur Hs.
  - by rewrite string_app_nil_r.
  - cbn [has_char] in Hs. apply orb_false_iff in Hs as [Hc Hs].
    cbn [split_at]. rewrite Hc, IH by done.
    by rewrite <- string_app_assoc.
Qed.

Lemma split_at_first_sep (sep : ascii) (a b cur : string) :
  has_char sep a = false →
  split_at sep cur (a ++ String sep b)
  = (cur ++ a)%string :: split_at sep EmptyString b.
Proof.
  revert cur. induction a as [|c a IH]; intros cur Ha.
  - change (EmptyString ++ String sep b)%string with (String sep b).
    cbn [split_at]. by rewrite Ascii.eqb_refl, string_app_nil_r.
  - cbn [has_char] in Ha. apply orb_false_iff in Ha as [Hc Ha].
    rewrite string_app_cons. cbn [split_at]. rewrite Hc, IH by done.
    by rewrite <- string_app_assoc.
Qed.

End brick_names.

(** X13.  The name that [Brick.__str__] prints is read back by
    [volume_info] when neither the hostname nor the path holds a colon:
    splitting [host:path] gives the hostname and the path.  A name
    without a colon raises [IndexError]. *)
Theorem brick_name_round_trip (b : Brick) (name : string) :
  (has_char ":" (hostname (peer b)) = false → has_char ":" (path b) = false →
   brick_name_parts (Brick_str b) = Returns (hostname (peer b), path b))
  ∧ (has_char ":" name = false → brick_name_parts name = Raises IndexError).
Proof.
  split.
  - intros Hh Hp. unfold brick_name_parts, Brick_str, str_split.
    change (hostname (peer b) ++ ":" ++ path b)%string
      with (hostname (peer b) ++ String ":" (path b))%string.
    rewrite split_at_first_sep by done. by rewrite split_at_no_sep by done.
  - intros Hn. unfold brick_name_parts, str_split.
    by rewrite split_at_no_sep by done.
Qed.

Lemma brick_name_round_trip_witness :
  brick_name_parts (Brick_str (new_brick (mkEntry "10.0.0.1" []) "/mnt/vdb1"))
  = Returns ("10.0.0.1", "/mnt/vdb1").
Proof.
  apply (proj1 (brick_name_round_trip
                  (new_brick (mkEntry "10.0.0.1" []) "/mnt/vdb1") EmptyString));
    reflexivity.
Defined.

(** X14.  [VolumeType.from_str] does not read what [VolumeType.__str__]
    prints: for every volume type the printed text parses to [None].  The
    constructor by value does read it back. *)
Theorem VolumeType_str_not_read_back (t : VolumeType) :
  VolumeType_from_str (VolumeType_str t) = NoType
  ∧ VolumeType_of_value (VolumeType_str t) = Returns t.
Proof. by destruct t. Qed.

(** X15.  [Transport.from_str] reads back what [Transport.__str__]
    prints, and a string gives a transport only if it is such a print or
    the text [0], which counts as [Tcp]. *)
Theorem Transport_str_from_str :
  (∀ t, Transport_from_str (Transport_str t) = Some t)
  ∧ (∀ s t, Transport_from_str s = Some t →
            s = Transport_str t ∨ (s = "0" ∧ t = Tcp)).
Proof.
  split.
  - intros t. by destruct t.
  - intros s t. unfold Transport_from_str.
    repeat (match goal with
            | |- context [String.eqb s ?lit] =>
                destruct (String.eqb_spec s lit) as [->|_]
            end); intros [= <-]; auto.
Qed.

Lemma Transport_str_from_str_witness :
  "0" = Transport_str Tcp ∨ ("0" = "0" ∧ Tcp = Tcp).
Proof. apply (proj2 Transport_str_from_str "0" Tcp). reflexivity. Defined.

(** * More of the code: sizes of block.py *)

Section powers_of_two.
Local Open Scope Z_scope.

Lemma power_of_2_pow (k : Z) : 0 ≤ k → power_of_2 (2 ^ k) = true.
Proof.
  intros Hk. unfold power_of_2. apply andb_true_iff. split.
  - apply Z.eqb_eq. rewrite Z.sub_1_r, <- Z.ones_equiv, Z.land_comm.
    rewrite Z.land_ones by done. apply Z_mod_same_full.
  - apply negb_true_iff, Z.eqb_neq. pose proof (Z.pow_pos_nonneg 2 k). lia.
Qed.

Lemma power_of_2_inv (n : Z) : power_of_2 n = true → n = 2 ^ Z.log2 n ∧ 0 < n.
Proof.
  unfold power_of_2. intros [Hland Hn]%andb_true_iff.
  apply Z.eqb_eq in Hland. apply negb_true_iff, Z.eqb_neq in Hn.
  destruct (Z.lt_trichotomy n 0) as [Hneg|[->|Hpos]]; [|done|].
  - assert (Z.land (n - 1) n < 0) by (apply Z.land_neg; lia). lia.
  - split; [|done]. destruct (Z.log2_spec n Hpos) as [Hlo Hhi].
    destruct (Z.eq_dec n (2 ^ Z.log2 n)) as [|Hne]; [done|]. exfalso.
    assert (0 < n - 1) as Hpos' by (pose proof (Z.pow_pos_nonneg 2 (Z.log2 n)
      ltac:(lia) (Z.log2_nonneg n)); lia).
    assert (Z.log2 (n - 1) = Z.log2 n) as Hlog
      by (apply Z.log2_unique; [apply Z.log2_nonneg|lia]).
    assert (Z.testbit (Z.land (n - 1) n) (Z.log2 n) = true) as Hbit.
    { rewrite Z.land_spec. rewrite <- Hlog at 1.
      by rewrite !Z.bit_log2 by done. }
    rewrite Hland, Z.bits_0 in Hbit. done.
Qed.

Lemma bit_length_nonneg (v : Z) : 0 ≤ bit_length v.
Proof.
  unfold bit_length. destruct (v =? 0); [done|].
  pose proof (Z.log2_nonneg (Z.abs v)). lia.
Qed.

Lemma next_power_of_two_bounds (x : Z) :
  1 ≤ x → x ≤ next_power_of_two x < 2 * x.
Proof.
  intros Hx. unfold next_power_of_two, bit_length.
  destruct (Z.eqb_spec (x - 1) 0) as [H0|Hne].
  - replace x with 1 by lia. simpl. lia.
  - rewrite Z.abs_eq by lia.
    destruct (Z.log2_spec (x - 1) ltac:(lia)) as [Hlo Hhi].
    rewrite Z.pow_add_r by (pose proof (Z.log2_nonneg (x - 1)); lia).
    rewrite Z.pow_succ_r in Hhi by apply Z.log2_nonneg. lia.
Qed.

End powers_of_two.

(** X16.  [power_of_2] answers [True] exactly for the powers of two
    [1, 2, 4, ...]; zero and the negative numbers are none. *)
Theorem power_of_2_iff (number : Z) :
  power_of_2 number = true ↔ ∃ k : Z, (0 ≤ k)%Z ∧ number = (2 ^ k)%Z.
Proof.
  split.
  - intros [Hn Hpos]%power_of_2_inv. exists (Z.log2 number).
    split; [apply Z.log2_nonneg|done].
  - intros (k & Hk & ->). by apply power_of_2_pow.
Qed.

(** X17.  For [x >= 1], [next_power_of_two x] is the least power of two
    that is not below [x]: it is a power of two, it lies between [x] and
    [2x - 1], and a power of two is its own next power. *)
Theorem next_power_of_two_least (x : Z) :
  (1 ≤ x)%Z →
  power_of_2 (next_power_of_two x) = true
  ∧ (x ≤ next_power_of_two x < 2 * x)%Z
  ∧ (power_of_2 x = true → next_power_of_two x = x).
Proof.
  intros Hx. pose proof (next_power_of_two_bounds x Hx) as Hb.
  split; [|split].
  - apply power_of_2_pow, bit_length_nonneg.
  - done.
  - intros [Hpow _]%power_of_2_inv.
    pose proof (bit_length_nonneg (x - 1)) as Hbl.
    pose proof (Z.log2_nonneg x) as Hk.
    unfold next_power_of_two in *.
    remember (bit_length (x - 1)) as b. remember (Z.log2 x) as k.
    assert (2 ^ k ≤ 2 ^ b)%Z as Hlo by lia.
    assert (2 ^ b < 2 ^ (k + 1))%Z as Hhi
      by (rewrite Z.pow_add_r by lia; lia).
    apply Z.pow_le_mono_r_iff in Hlo; [|lia|done].
    apply Z.pow_lt_mono_r_iff in Hhi; [|lia|lia].
    replace b with k by lia. by symmetry.
Qed.

Lemma next_power_of_two_least_witness :
  power_of_2 (next_power_of_two 5) = true
  ∧ (5 ≤ next_power_of_two 5 < 2 * 5)%Z
  ∧ (power_of_2 5 = true → next_power_of_two 5 = 5%Z).
Proof. apply (next_power_of_two_least 5). lia. Defined.

(** * More of the code: the callers of the planner in main.py *)

Import main_py.

Section callers.
Implicit Types (peers : dict PeerEntry) (gluster : cli).

(** The call of [volume.create] that [create_volume] makes for a brick
    list: always to [tcp], always forced, the bricks printed. *)
Lemma create_call_shape gluster (t : VolumeType) (name : string)
    (replicas extra : Z) (brick_list : list Brick) :
  ∃ c,
    (match t with
     | Distribute =>
         volume_create_distributed gluster name Tcp brick_list true
     | Stripe => volume_create_striped gluster name replicas Tcp brick_list true
     | Replicate =>
         volume_create_replicated gluster name replicas Tcp brick_list true
     | Arbiter =>
         volume_create_arbiter gluster name replicas extra Tcp brick_list true
     | StripedAndReplicate =>
         volume_create_striped_replicated gluster name extra replicas Tcp
                                          brick_list true
     | Disperse =>
         volume_create_erasure gluster name replicas (Some extra) Tcp
                               brick_list true
     | DistributedAndStripe =>
         volume_create_striped gluster name replicas Tcp brick_list true
     | DistributedAndReplicate =>
         volume_create_replicated gluster name replicas Tcp brick_list true
     | DistributedAndStripedAndReplicate =>
         volume_create_striped_replicated gluster name extra replicas Tcp
                                          brick_list true
     | DistributedAndDisperse =>
         volume_create_erasure gluster name extra None Tcp brick_list true
     end) = (gluster (Create c), [Create c])
    ∧ volname c = name ∧ volbricks c = Brick_str <$> brick_list
    ∧ transport c = "tcp" ∧ force c = true.
Proof. destruct t; eexists; (split; [reflexivity|done]). Qed.

Lemma create_volume_with_bricks fuel gluster peer_status
    (cluster_type_config name : string) (t : VolumeType) (replicas extra : Z)
    peers (volume_info : option Volume) answer st (brick_list : list Brick) :
  VolumeType_of_value (lower cluster_type_config) = Returns t →
  wait_for_peers fuel peer_status = Some (Returns answer, st) →
  get_brick_list fuel (Returns replicas) peers volume_info
  = Some (Returns (Ok brick_list)) →
  ∃ c,
    create_volume fuel gluster peer_status cluster_type_config name
                  (Returns replicas) (Returns extra) peers volume_info
    = Some (Gives match gluster (Create c) with
                  | Ok _ => Ok Created
                  | Err _ => Err (inl FailedToCreate)
                  end, [Create c])
    ∧ volname c = name ∧ volbricks c = Brick_str <$> brick_list
    ∧ transport c = "tcp" ∧ force c = true.
Proof.
  intros Ht Hwait Hlist.
  destruct (create_call_shape gluster t name replicas extra brick_list)
    as (c & Hcall & Hshape).
  exists c. split; [|done].
  unfold create_volume. rewrite Ht, Hwait, Hlist, Hcall.
  by destruct (gluster (Create c)).
Qed.

(** Polls that do not raise: with fuel for 601 turns the wait returns. *)
Lemma wait_loop_no_raise peer_status k : ∀ n fuel,
  n + k = 600 → k < fuel →
  (∀ i, ∃ peer_list, peer_status i = Returns peer_list) →
  ∃ answer st, wait_loop fuel peer_status (at_turn n) = Some (Returns answer, st).
Proof.
  induction k as [|k IH]; intros n fuel Hn Hfuel Hpolls;
    (destruct fuel as [|fuel]; [lia|]); destruct (Hpolls n) as [l Hl].
  - cbn [wait_loop at_turn polls iterations slept]. rewrite Hl.
    destruct (peers_are_ready l); cbn [negb]; [by eexists _, _|].
    rewrite bool_decide_eq_true_2 by lia. by eexists _, _.
  - destruct (peers_are_ready l) eqn:Hready.
    + rewrite wait_loop_ready by (by exists l). by eexists _, _.
    + rewrite wait_loop_busy; [|by exists l|lia]. apply IH; [lia|lia|done].
Qed.

Lemma wait_for_peers_no_raise peer_status fuel :
  600 < fuel →
  (∀ i, ∃ peer_list, peer_status i = Returns peer_list) →
  ∃ answer st, wait_for_peers fuel peer_status = Some (Returns answer, st).
Proof. intros. by apply (wait_loop_no_raise peer_status 600 0). Qed.

Lemma get_brick_list_no_volume_few (cfg : outcome Z) (R : Z) peers fuel :
  replicas_of cfg = Returns R → (len peers < R)%Z →
  get_brick_list fuel cfg peers None = Some (Returns (Err WaitForMorePeers)).
Proof.
  intros Hcfg Hlt. unfold get_brick_list. rewrite Hcfg. cbn [and_then].
  by rewrite bool_decide_eq_true_2.
Qed.

Lemma get_brick_list_no_volume_equal (cfg : outcome Z) (R : Z) peers fuel :
  dict_wf peers → replicas_of cfg = Returns R → (0 < R)%Z →
  len peers = R → min_devices peers < fuel →
  get_brick_list fuel cfg peers None = Some (Returns (Ok (round_robin peers))).
Proof.
  intros Hwf Hcfg HR Heq Hfuel. unfold get_brick_list. rewrite Hcfg.
  cbn [and_then].
  rewrite bool_decide_eq_false_2 by lia. rewrite bool_decide_eq_true_2 by done.
  apply Ok_product_rounds; [done| |done].
  intros ->. unfold len in Heq. simpl in Heq. lia.
Qed.

Lemma round_robin_no_device peers : min_devices peers = 0 → round_robin peers = [].
Proof. unfold round_robin. by intros ->. Qed.

Lemma round_robin_some_device peers :
  peers ≠ [] → 0 < min_devices peers → round_robin peers ≠ [].
Proof.
  intros Hne Hmin Hnil. apply (f_equal length) in Hnil.
  rewrite length_round_robin in Hnil. cbn [length] in Hnil.
  destruct peers as [|ke rest]; [done|].
  remember (min_devices (ke :: rest)) as m. cbn [length] in Hnil. nia.
Qed.

Lemma VolumeType_of_value_member (v : string) (t : VolumeType) :
  VolumeType_of_value v = Returns t → VolumeType_value t = v.
Proof.
  unfold VolumeType_of_value.
  destruct (find _ _) as [t'|] eqn:Hfind; [|done]. intros [= ->].
  apply find_some in Hfind as [_ Heq]. by apply String.eqb_eq.
Qed.

End callers.

(** X18.  [expand_volume] makes at most one call of the command line: a
    forced add-brick for the volume, never with an empty list, the bricks
    being the non-empty list that [get_brick_list] returned; and it makes
    that call only when it is given no volume. *)
Theorem expand_volume_calls (fuel : nat) (gluster : cli) (volume_name : string)
    (cfg : outcome Z) (peers : dict PeerEntry) (vol_info : option Volume)
    (answer : ended (Result Status (Status + string))) (calls : list cli_call) :
  expand_volume fuel gluster volume_name cfg peers vol_info = Some (answer, calls) →
  calls = []
  ∨ ∃ b bs, calls = [AddBrick volume_name (b :: bs) true]
            ∧ get_brick_list fuel cfg peers vol_info
              = Some (Returns (Ok (b :: bs)))
            ∧ vol_info = None.
Proof.
  unfold expand_volume.
  destruct (get_brick_list fuel cfg peers vol_info)
    as [[[[|b bs]|status]|e]|] eqn:Hlist;
    [| |by intros [= _ <-]; left|by intros [= _ <-]; left|done].
  - intros [= _ <-]. by left.
  - unfold volume_add_brick.
    assert (vol_info = None) as Hnone.
    { destruct vol_info as [volume|]; [|done].
      unfold get_brick_list in Hlist.
      by destruct (replicas_of cfg). }
    destruct (gluster (AddBrick volume_name (b :: bs) true));
      intros [= _ <-]; right; by exists b, bs.
Qed.

Lemma expand_volume_calls_witness :
  [AddBrick "test" (round_robin five_peers) true] = []
  ∨ ∃ b bs,
      [AddBrick "test" (round_robin five_peers) true]
      = [AddBrick "test" (b :: bs) true]
      ∧ get_brick_list 10 (Returns 5%Z) five_peers None
        = Some (Returns (Ok (b :: bs)))
      ∧ @None Volume = None.
Proof.
  apply (expand_volume_calls 10 (λ _, Ok EmptyString) "test" (Returns 5%Z)
           five_peers None (Gives (Ok Expanded))).
  reflexivity.
Defined.

(** X19.  Given a volume, as [check_for_expansion] gives it,
    [expand_volume] raises the [TypeError] of [get_brick_list] and calls
    nothing, whatever the peers, the replication level (read, or
    unreadable and so 3), the fuel and the command line. *)
Theorem expand_volume_raises_TypeError (fuel : nat) (gluster : cli)
    (volume_name : string) (R : Z) (peers : dict PeerEntry) (volume : Volume) :
  expand_volume fuel gluster volume_name (Returns R) peers (Some volume)
  = Some (Throws (Py TypeError), [])
  ∧ expand_volume fuel gluster volume_name (Raises ValueError) peers (Some volume)
    = Some (Throws (Py TypeError), []).
Proof. split; reflexivity. Qed.

(** X20.  [expand_volume] without a volume and with exactly [R >= 1]
    peers: when one of them has no device it answers
    [Ok(Status.InvalidConfig)] and calls nothing; otherwise it makes the
    one forced add-brick call with the round robin over the peers, and
    answers [Ok(Status.Expanded)], or [Err] of the text of the command's
    exception after ["Adding brick to volume failed: "]. *)
Theorem expand_volume_enough_peers (fuel : nat) (gluster : cli)
    (volume_name : string) (cfg : outcome Z) (R : Z) (peers : dict PeerEntry) :
  dict_wf peers → replicas_of cfg = Returns R → (0 < R)%Z →
  len peers = R → min_devices peers < fuel →
  let brick_list := round_robin peers in
  let call := AddBrick volume_name brick_list true in
  expand_volume fuel gluster volume_name cfg peers None
  = Some (if decide (min_devices peers = 0)
          then (Gives (Ok InvalidConfig), [])
          else match gluster call with
               | Ok _ => (Gives (Ok Expanded), [call])
               | Err msg =>
                   (Gives (Err (inr ("Adding brick to volume failed: "
                                     ++ msg)%string)), [call])
               end).
Proof.
  intros Hwf Hcfg HR Heq Hfuel brick_list call. unfold expand_volume.
  rewrite (get_brick_list_no_volume_equal cfg R peers fuel) by done.
  fold brick_list. destruct (decide _) as [Hzero|Hsome].
  - unfold brick_list. by rewrite round_robin_no_device.
  - assert (brick_list ≠ []) as Hne.
    { apply round_robin_some_device; [|lia].
      intros Hnil. rewrite Hnil in Heq. unfold len in Heq. simpl in Heq. lia. }
    subst call. destruct brick_list as [|b bs]; [done|].
    unfold volume_add_brick. by destruct (gluster _).
Qed.

Lemma expand_volume_enough_peers_witness :
  expand_volume 10 (λ _, Err "locked") "test" (Returns 5%Z) five_peers None
  = Some (Gives (Err (inr "Adding brick to volume failed: locked")),
          [AddBrick "test" (round_robin five_peers) true]).
Proof.
  apply (expand_volume_enough_peers 10 (λ _, Err "locked") "test" (Returns 5%Z)
           5 five_peers).
  - apply (bool_decide_unpack _). reflexivity.
  - reflexivity.
  - lia.
  - reflexivity.
  - vm_compute. lia.
Defined.

(** X21.  [create_volume] drops the answer of [wait_for_peers]: with fuel
    for 601 turns and polls that do not raise, its answer and its calls
    are the same whether the peers get ready or the wait times out. *)
Theorem create_volume_ignores_the_wait (fuel : nat) (gluster : cli)
    (peer_status peer_status' : nat → outcome (list Peer))
    (cluster_type_config volume_name : string)
    (int_replication_level int_extra_level : outcome Z)
    (peers : dict PeerEntry) (volume_info : option Volume) :
  600 < fuel →
  (∀ i, ∃ peer_list, peer_status i = Returns peer_list) →
  (∀ i, ∃ peer_list, peer_status' i = Returns peer_list) →
  create_volume fuel gluster peer_status cluster_type_config volume_name
                int_replication_level int_extra_level peers volume_info
  = create_volume fuel gluster peer_status' cluster_type_config volume_name
                  int_replication_level int_extra_level peers volume_info.
Proof.
  intros Hfuel Hpolls Hpolls'. unfold create_volume.
  destruct (wait_for_peers_no_raise peer_status fuel Hfuel Hpolls)
    as (answer & st & ->).
  by destruct (wait_for_peers_no_raise peer_status' fuel Hfuel Hpolls')
    as (answer' & st' & ->).
Qed.

Lemma create_volume_ignores_the_wait_witness :
  create_volume 601 (λ _, Ok EmptyString) (λ _, Returns [busy_peer])
                "Replicate" "test" (Returns 5%Z) (Returns 1%Z) five_peers None
  = create_volume 601 (λ _, Ok EmptyString) (λ _, Returns [ready_peer])
                  "Replicate" "test" (Returns 5%Z) (Returns 1%Z) five_peers None.
Proof.
  apply (create_volume_ignores_the_wait 601 (λ _, Ok EmptyString)
           (λ _, Returns [busy_peer]) (λ _, Returns [ready_peer])).
  - lia.
  - intros i. exists [busy_peer]. reflexivity.
  - intros i. exists [ready_peer]. reflexivity.
Defined.

(** X22.  Once the wait has returned, whatever its answer, and
    [get_brick_list] has answered [Ok] of a brick list, [create_volume]
    makes exactly one call of [volume.create]: for the configured volume
    name, with the bricks printed as [host:path] in the order of the list,
    over [tcp] and forced; it answers [Ok(Status.Created)] when the call
    succeeds and [Err(Status.FailedToCreate)] when it raises. *)
Theorem create_volume_one_create_call (fuel : nat) (gluster : cli)
    (peer_status : nat → outcome (list Peer))
    (cluster_type_config volume_name : string) (cluster_type : VolumeType)
    (replicas extra : Z) (peers : dict PeerEntry) (volume_info : option Volume)
    (answer : Result unit string) (st : wait_state) (brick_list : list Brick) :
  VolumeType_of_value (lower cluster_type_config) = Returns cluster_type →
  wait_for_peers fuel peer_status = Some (Returns answer, st) →
  get_brick_list fuel (Returns replicas) peers volume_info
  = Some (Returns (Ok brick_list)) →
  ∃ c,
    create_volume fuel gluster peer_status cluster_type_config volume_name
                  (Returns replicas) (Returns extra) peers volume_info
    = Some (Gives match gluster (Create c) with
                  | Ok _ => Ok Created
                  | Err _ => Err (inl FailedToCreate)
                  end, [Create c])
    ∧ volname c = volume_name ∧ volbricks c = Brick_str <$> brick_list
    ∧ transport c = "tcp" ∧ force c = true.
Proof. apply create_volume_with_bricks. Qed.

Lemma create_volume_one_create_call_witness :
  ∃ c,
    create_volume 601 (λ _, Err "no") (λ _, Returns [busy_peer])
                  "Distributed-Replicate" "test" (Returns 5%Z) (Returns 1%Z)
                  five_peers None
    = Some (Gives match (λ _ : cli_call, @Err string string "no") (Create c) with
                  | Ok _ => Ok Created
                  | Err _ => Err (inl FailedToCreate)
                  end, [Create c])
    ∧ volname c = "test"
    ∧ volbricks c = Brick_str <$> round_robin five_peers
    ∧ transport c = "tcp" ∧ force c = true.
Proof.
  apply (create_volume_one_create_call 601 (λ _, Err "no")
           (λ _, Returns [busy_peer]) "Distributed-Replicate" "test"
           DistributedAndReplicate 5 1 five_peers None
           (Err timeout_message) (mkWait 601 601 601)).
  - reflexivity.
  - vm_compute. reflexivity.
  - vm_compute. reflexivity.
Defined.

(** X23.  Without a volume and with fewer peers than the configured
    replication level, [create_volume] answers
    [Ok(Status.WaitForMorePeers)] once the wait has returned, and calls
    nothing. *)
Theorem create_volume_waits_for_peers (fuel : nat) (gluster : cli)
    (peer_status : nat → outcome (list Peer))
    (cluster_type_config volume_name : string) (cluster_type : VolumeType)
    (replicas extra : Z) (peers : dict PeerEntry)
    (answer : Result unit string) (st : wait_state) :
  VolumeType_of_value (lower cluster_type_config) = Returns cluster_type →
  wait_for_peers fuel peer_status = Some (Returns answer, st) →
  (len peers < replicas)%Z →
  create_volume fuel gluster peer_status cluster_type_config volume_name
                (Returns replicas) (Returns extra) peers None
  = Some (Gives (Ok WaitForMorePeers), []).
Proof.
  intros Ht Hwait Hfew. unfold create_volume. rewrite Ht, Hwait.
  by rewrite (get_brick_list_no_volume_few (Returns replicas) replicas).
Qed.

Lemma create_volume_waits_for_peers_witness :
  create_volume 1 (λ _, Ok EmptyString) (λ _, Returns [ready_peer])
                "replicate" "test" (Returns 3%Z) (Returns 1%Z)
                two_peers_equal None
  = Some (Gives (Ok WaitForMorePeers), []).
Proof.
  apply (create_volume_waits_for_peers 1 (λ _, Ok EmptyString)
           (λ _, Returns [ready_peer]) "replicate" "test" Replicate 3 1
           two_peers_equal (Ok ()) (mkWait 1 0 0)).
  - reflexivity.
  - reflexivity.
  - vm_compute. reflexivity.
Defined.

(** X24.  Where [expand_volume] stops at an empty brick list,
    [create_volume] does not: with as many peers as replicas, one of them
    without a device, it still makes its call of [volume.create], with no
    brick at all. *)
Theorem create_volume_sends_no_bricks (fuel : nat) (gluster : cli)
    (peer_status : nat → outcome (list Peer))
    (cluster_type_config volume_name : string) (cluster_type : VolumeType)
    (replicas extra : Z) (peers : dict PeerEntry)
    (answer : Result unit string) (st : wait_state) :
  VolumeType_of_value (lower cluster_type_config) = Returns cluster_type →
  wait_for_peers fuel peer_status = Some (Returns answer, st) →
  dict_wf peers → (0 < replicas)%Z → len peers = replicas →
  min_devices peers = 0 →
  ∃ c result,
    create_volume fuel gluster peer_status cluster_type_config volume_name
                  (Returns replicas) (Returns extra) peers None
    = Some (Gives result, [Create c])
    ∧ volbricks c = [].
Proof.
  intros Ht Hwait Hwf HR Heq Hzero.
  assert (get_brick_list fuel (Returns replicas) peers None
          = Some (Returns (Ok []))) as Hlist.
  { rewrite <- (round_robin_no_device peers Hzero).
    apply (get_brick_list_no_volume_equal _ replicas); [done..|].
    rewrite Hzero. destruct fuel as [|fuel']; [discriminate Hwait|lia]. }
  destruct (create_volume_with_bricks fuel gluster peer_status
              cluster_type_config volume_name cluster_type replicas extra
              peers None answer st [] Ht Hwait Hlist)
    as (c & Hrun & _ & Hbricks & _).
  by exists c, match gluster (Create c) with
               | Ok _ => Ok Created
               | Err _ => Err (inl FailedToCreate)
               end.
Qed.

Lemma create_volume_sends_no_bricks_witness :
  ∃ c result,
    create_volume 1 (λ _, Ok EmptyString) (λ _, Returns [ready_peer])
                  "replicate" "test" (Returns 2%Z) (Returns 1%Z)
                  [("A", mkEntry "hostA" []); ("B", mkEntry "hostB" ["b1"])]
                  None
    = Some (Gives result, [Create c])
    ∧ volbricks c = [].
Proof.
  apply (create_volume_sends_no_bricks 1 (λ _, Ok EmptyString)
           (λ _, Returns [ready_peer]) "replicate" "test" Replicate 2 1
           [("A", mkEntry "hostA" []); ("B", mkEntry "hostB" ["b1"])]
           (Ok ()) (mkWait 1 0 0)).
  - reflexivity.
  - reflexivity.
  - apply (bool_decide_unpack _). reflexivity.
  - lia.
  - reflexivity.
  - reflexivity.
Defined.

(** X25.  When [create_volume] gives an answer instead of raising, the
    configured cluster type, lower-cased, is the value of a member of
    [VolumeType] and both levels were read as integers: the default of 3
    replicas that [get_brick_list] keeps for an unreadable level is never
    used on this path. *)
Theorem create_volume_answers_only_with_integers (fuel : nat) (gluster : cli)
    (peer_status : nat → outcome (list Peer))
    (cluster_type_config volume_name : string)
    (int_replication_level int_extra_level : outcome Z)
    (peers : dict PeerEntry) (volume_info : option Volume)
    (answer : Result Status (Status + string)) (calls : list cli_call) :
  create_volume fuel gluster peer_status cluster_type_config volume_name
                int_replication_level int_extra_level peers volume_info
  = Some (Gives answer, calls) →
  ∃ cluster_type replicas extra,
    VolumeType_value cluster_type = lower cluster_type_config
    ∧ int_replication_level = Returns replicas
    ∧ int_extra_level = Returns extra
    ∧ replicas_of int_replication_level = Returns replicas.
Proof.
  unfold create_volume.
  destruct (VolumeType_of_value (lower cluster_type_config)) as [t|] eqn:Ht;
    [|done].
  destruct int_replication_level as [R|]; [|done].
  destruct int_extra_level as [E|]; [|done].
  intros _. exists t, R, E. split_and!; [|done..].
  by apply VolumeType_of_value_member.
Qed.

Lemma create_volume_answers_only_with_integers_witness :
  ∃ cluster_type replicas extra,
    VolumeType_value cluster_type = lower "Replicate"
    ∧ Returns 3%Z = Returns replicas
    ∧ Returns 1%Z = Returns extra
    ∧ replicas_of (Returns 3%Z) = Returns replicas.
Proof.
  apply (create_volume_answers_only_with_integers 1 (λ _, Ok EmptyString)
           (λ _, Returns [ready_peer]) "Replicate" "test" (Returns 3%Z)
           (Returns 1%Z) two_peers_equal None (Ok WaitForMorePeers) []).
  vm_compute. reflexivity.
Defined.

(** * More of the code: the rolling upgrade *)

(** X26.  [roll_cluster] never rolls: in every state and for every
    version it ends without having changed the state, so without a marker
    written, a sleep or an upgrade of the peer, and its answer is never
    [Ok(())].  It answers the [Err] of [get_local_uuid] or of a parse
    error of [volume_info], and it raises otherwise. *)
Theorem roll_cluster_never_rolls (fuel : nat) (new_version : string) (w : world) :
  ∃ r, roll_cluster fuel new_version w = Some (r, w)
       ∧ r ≠ Returns (Ok ())
       ∧ (∀ u l, local_uuid w = Returns (Ok u) → upgrade_py.volume_info w = Returns l →
                 r = Raises AttributeError).
Proof.
  unfold roll_cluster, bindf, lift, get_local_uuid.
  destruct (local_uuid w) as [[u|e]|e] eqn:Hu.
  - unfold except_ParseError_f, get_volume_info.
    destruct (upgrade_py.volume_info w) as [l|e] eqn:Hl.
    + exists (Raises AttributeError). by split_and!.
    + destruct e; eexists; (split_and!; [done|done|done]).
  - exists (Returns (Err e)). by split_and!.
  - exists (Raises e). by split_and!.
Qed.

Lemma roll_cluster_never_rolls_witness :
  ∃ r, roll_cluster 10 "3.10" (quiet_world Missing 100)
       = Some (r, quiet_world Missing 100)
       ∧ r ≠ Returns (Ok ())
       ∧ r = Raises AttributeError.
Proof.
  destruct (roll_cluster_never_rolls 10 "3.10" (quiet_world Missing 100))
    as (r & Hrun & Hnot & Hraise).
  exists r. split; [exact Hrun|]. split; [exact Hnot|].
  apply (Hraise 5%N [sample_volume]); reflexivity.
Defined.
